(** * wall_follower: the reactive wall-following controller of the TurtleBot3

    A shallow embedding of [wall_follower/src/wall_follower.cpp] and of the
    constants of [wall_follower.hpp].  The node is a record of its member
    variables (and of the two function-local statics of [odom_callback]);
    each callback is a computation in a small monad that threads the node,
    collects what the callback sends out (published twists, the line on
    stderr, the log lines) and may end in a C++ exception.

    Numbers are the code's: [double] is the kernel's binary64 float, with
    IEEE comparison and rounding; [int] is a [Z] wrapped to 32 bits. *)

From Stdlib Require Import Floats ZArith QArith Qabs List Bool String Lia Lqa.
From stdpp Require Import base list.
Import ListNotations.

Set Warnings "-inexact-float".
Set Default Proof Using "Type".

Local Open Scope Z_scope.
Local Open Scope float_scope.

(* ================================================================= *)
(** ** Numbers *)

(** [a > b] on doubles, as the source writes it. *)
Notation "x >? y" := (PrimFloat.ltb y x)
  (at level 70, no associativity) : float_scope.

(** [fabs] of <cmath>. *)
Definition fabs (x : float) : float := PrimFloat.abs x.

#[global] Instance float_inhabited : Inhabited float := populate 0.

(** The value an [int] takes when the mathematical result is [z]: the
    two's-complement wrap-around of the target (signed overflow itself is
    undefined in C++; the wrap is what the increment compiles to). *)
Definition INT_MAX : Z := 2147483647.
Definition INT_MIN : Z := -2147483648.
Definition wrap_int (z : Z) : Z := ((z + 2 ^ 31) mod 2 ^ 32 - 2 ^ 31)%Z.

(* ================================================================= *)
(** ** Constants of wall_follower.hpp and wall_follower.cpp *)

Definition FRONT       : nat := 0.
Definition FRONT_LEFT  : nat := 1.
Definition LEFT_FRONT  : nat := 2.
Definition LEFT        : nat := 3.
Definition LEFT_BACK   : nat := 4.
Definition BACK_LEFT   : nat := 5.
Definition BACK        : nat := 6.
Definition BACK_RIGHT  : nat := 7.
Definition RIGHT_BACK  : nat := 8.
Definition RIGHT       : nat := 9.
Definition RIGHT_FRONT : nat := 10.
Definition FRONT_RIGHT : nat := 11.

Definition LINEAR_VELOCITY  : float := 0.3.
Definition ANGULAR_VELOCITY : float := 1.5.
Definition BASE_FACTOR : float := 0.8.
Definition START_RANGE : float := 0.2.
Definition BEAM_WIDTH : Z := 10.

(** [uint16_t scan_angle[12]] of [scan_callback]. *)
Definition scan_angle : list Z :=
  [0; 30; 60; 90; 120; 150; 180; 210; 240; 270; 300; 330]%Z.

(* ================================================================= *)
(** ** Messages *)

Record Quaternion := mkQuaternion {
  q_x : float; q_y : float; q_z : float; q_w : float }.

(** nav_msgs/Odometry, the fields the callback reads:
    [pose.pose.position.{x,y}] and [pose.pose.orientation]. *)
Record Odometry := mkOdometry {
  position_x : float;
  position_y : float;
  orientation : Quaternion }.

(** sensor_msgs/LaserScan, the fields the callback reads.  The message
    carries [float]s; every use converts them to [double], which is exact,
    so the samples are kept as the doubles they become. *)
Record LaserScan := mkLaserScan {
  range_max : float;
  ranges : list float }.

(** geometry_msgs/Twist: [linear.x] and [angular.z]; the other four
    components stay at the zero they are constructed with. *)
Record Twist := mkTwist {
  linear_x : float;
  angular_z : float }.

(* ================================================================= *)
(** ** The node *)

Record WallFollower := mkWallFollower {
  robot_pose_ : float;
  start_x : float;
  start_y : float;
  near_start : bool;
  scan_data_ : list float;          (* double scan_data_[12] *)
  new_scan_data : bool;
  initial_scan : bool;
  since_new_scan : Z;               (* int *)
  first : bool;                     (* static of odom_callback *)
  start_moving : bool               (* static of odom_callback *)
}.

Definition set_robot_pose_ (v : float) (s : WallFollower) : WallFollower :=
  mkWallFollower v (start_x s) (start_y s) (near_start s) (scan_data_ s)
    (new_scan_data s) (initial_scan s) (since_new_scan s) (first s)
    (start_moving s).
Definition set_start_x (v : float) (s : WallFollower) : WallFollower :=
  mkWallFollower (robot_pose_ s) v (start_y s) (near_start s) (scan_data_ s)
    (new_scan_data s) (initial_scan s) (since_new_scan s) (first s)
    (start_moving s).
Definition set_start_y (v : float) (s : WallFollower) : WallFollower :=
  mkWallFollower (robot_pose_ s) (start_x s) v (near_start s) (scan_data_ s)
    (new_scan_data s) (initial_scan s) (since_new_scan s) (first s)
    (start_moving s).
Definition set_near_start (v : bool) (s : WallFollower) : WallFollower :=
  mkWallFollower (robot_pose_ s) (start_x s) (start_y s) v (scan_data_ s)
    (new_scan_data s) (initial_scan s) (since_new_scan s) (first s)
    (start_moving s).
Definition set_scan_data_ (v : list float) (s : WallFollower) : WallFollower :=
  mkWallFollower (robot_pose_ s) (start_x s) (start_y s) (near_start s) v
    (new_scan_data s) (initial_scan s) (since_new_scan s) (first s)
    (start_moving s).
Definition set_new_scan_data (v : bool) (s : WallFollower) : WallFollower :=
  mkWallFollower (robot_pose_ s) (start_x s) (start_y s) (near_start s)
    (scan_data_ s) v (initial_scan s) (since_new_scan s) (first s)
    (start_moving s).
Definition set_initial_scan (v : bool) (s : WallFollower) : WallFollower :=
  mkWallFollower (robot_pose_ s) (start_x s) (start_y s) (near_start s)
    (scan_data_ s) (new_scan_data s) v (since_new_scan s) (first s)
    (start_moving s).
Definition set_since_new_scan (v : Z) (s : WallFollower) : WallFollower :=
  mkWallFollower (robot_pose_ s) (start_x s) (start_y s) (near_start s)
    (scan_data_ s) (new_scan_data s) (initial_scan s) v (first s)
    (start_moving s).
Definition set_first (v : bool) (s : WallFollower) : WallFollower :=
  mkWallFollower (robot_pose_ s) (start_x s) (start_y s) (near_start s)
    (scan_data_ s) (new_scan_data s) (initial_scan s) (since_new_scan s) v
    (start_moving s).
Definition set_start_moving (v : bool) (s : WallFollower) : WallFollower :=
  mkWallFollower (robot_pose_ s) (start_x s) (start_y s) (near_start s)
    (scan_data_ s) (new_scan_data s) (initial_scan s) (since_new_scan s)
    (first s) v.

(* ================================================================= *)
(** ** Effects *)

(** The line feed that ends a line on stderr. *)
Definition newline : string := String (Ascii.ascii_of_nat 10) EmptyString.

(** What a callback sends out of the node. *)
Inductive Output :=
| Publish (t : Twist)                        (* cmd_vel_pub_->publish *)
| Stderr (line : string)                     (* fprintf(stderr, ...) *)
| Info (fmt : string) (args : list float).   (* RCLCPP_INFO *)

(** [std::out_of_range], thrown by [vector::at]. *)
Inductive exn :=
| out_of_range (index : Z) (size : nat).

Inductive outcome (A : Type) :=
| Normal (a : A)
| Thrown (e : exn).
Arguments Normal {A} a.
Arguments Thrown {A} e.

(** The result of running a computation: how it ended, the node as it
    left it (also when it threw), and what it sent out, in order. *)
Record Run (A : Type) := mkRun {
  ended : outcome A;
  node : WallFollower;
  sent : list Output }.
Arguments mkRun {A}.
Arguments ended {A}.
Arguments node {A}.
Arguments sent {A}.

Definition M (A : Type) : Type := WallFollower -> Run A.

Definition ret {A} (a : A) : M A := fun s => mkRun (Normal a) s [].

Definition bind {A B} (m : M A) (k : A -> M B) : M B := fun s =>
  match m s with
  | mkRun (Normal a) s' out =>
      match k a s' with
      | mkRun end' s'' out' => mkRun end' s'' (out ++ out')
      end
  | mkRun (Thrown e) s' out => mkRun (Thrown e) s' out
  end.

Definition get : M WallFollower := fun s => mkRun (Normal s) s [].
Definition modify (f : WallFollower -> WallFollower) : M unit :=
  fun s => mkRun (Normal tt) (f s) [].
Definition send (o : Output) : M unit := fun s => mkRun (Normal tt) s [o].
Definition throw {A} (e : exn) : M A := fun s => mkRun (Thrown e) s [].

Declare Scope node_scope.
Delimit Scope node_scope with node.
Notation "x <- m ;; k" := (bind m (fun x => k))
  (at level 100, m at next level, right associativity) : node_scope.
Notation "m ;; k" := (bind m (fun _ => k))
  (at level 100, right associativity) : node_scope.
Local Open Scope node_scope.

(** A computation that touches no member: a value or an exception. *)
Definition lift {A} (r : exn + A) : M A :=
  match r with
  | inr a => ret a
  | inl e => throw e
  end.

(** [for (x : xs) body(x)]. *)
Fixpoint for_each {A} (xs : list A) (body : A -> M unit) : M unit :=
  match xs with
  | [] => ret tt
  | x :: xs' => body x ;; for_each xs' body
  end.

(** The published twists among what was sent. *)
Definition commands (os : list Output) : list Twist :=
  omap (fun o => match o with Publish t => Some t | _ => None end) os.

(* ================================================================= *)
(** ** The callbacks *)

(** [v.at(i)] with an [int] index: the element, or [std::out_of_range]
    (a negative [int] converts to a [size_t] past every size). *)
Definition at_ (v : list float) (i : Z) : exn + float :=
  if (i <? 0)%Z then inl (out_of_range i (length v))
  else match v !! Z.to_nat i with
       | Some x => inr x
       | None => inl (out_of_range i (length v))
       end.

(** [for (angle = ...) if (ranges.at(angle) < closest) closest = ranges.at(angle);]
    over the given angles, from the given [closest]. *)
Fixpoint closest_over (v : list float) (angles : list Z) (closest : float)
  : exn + float :=
  match angles with
  | [] => inr closest
  | angle :: rest =>
      match at_ v angle with
      | inl e => inl e
      | inr r => closest_over v rest (if r <? closest then r else closest)
      end
  end.

(** [scan_data_[i] = v]; the callback writes the indices 0..11 of the
    twelve. *)
Definition store (i : nat) (v : float) : M unit :=
  modify (fun s => set_scan_data_ (<[i := v]> (scan_data_ s)) s).

Definition scan_callback (msg : LaserScan) : M unit :=
  s <- get ;;
  (if negb (initial_scan s) then modify (set_initial_scan true) else ret tt) ;;
  modify (set_new_scan_data true) ;;
  closest <- lift (closest_over (ranges msg)
                     (seqZ (360 - BEAM_WIDTH) BEAM_WIDTH) (range_max msg)) ;;
  closest <- lift (closest_over (ranges msg) (seqZ 0 BEAM_WIDTH) closest) ;;
  store 0 closest ;;
  for_each (seq 1 11) (fun i =>
    closest <- lift (closest_over (ranges msg)
                       (seqZ (scan_angle !!! i - BEAM_WIDTH) (2 * BEAM_WIDTH))
                       (range_max msg)) ;;
    store i closest) ;;
  s <- get ;;
  send (Info "Closest distance in front: %f" [scan_data_ s !!! 0%nat]).

Definition update_cmd_vel (linear angular factor : float) : M unit :=
  send (Publish (mkTwist (linear * factor) (angular * factor))).

Section Platform.

(** [pow] of <cmath> at a [double] base and an [int] exponent, and the yaw
    that tf2's [Matrix3x3(q).getRPY] extracts from a quaternion: library
    functions outside the repository, taken as they come. *)
Variable pow : float -> Z -> float.
Variable getYaw : Quaternion -> float.

Definition odom_callback (msg : Odometry) : M unit :=
  let yaw := getYaw (orientation msg) in
  modify (set_robot_pose_ yaw) ;;
  let current_x := position_x msg in
  let current_y := position_y msg in
  s <- get ;;
  (if first s then
     modify (set_start_x current_x) ;;
     modify (set_start_y current_y) ;;
     modify (set_first false)
   else if start_moving s then
     if (fabs (current_x - start_x s) >? START_RANGE)
        || (fabs (current_y - start_y s) >? START_RANGE)
     then modify (set_start_moving false)
     else ret tt
   else if (fabs (current_x - start_x s) <? START_RANGE)
           && (fabs (current_y - start_y s) <? START_RANGE)
   then
     send (Stderr ("Near start!!" ++ newline)) ;;
     modify (set_near_start true) ;;
     modify (set_first true) ;;
     modify (set_start_moving true)
   else ret tt) ;;
  s <- get ;;
  send (Info "Position (x: %f, y: %f), Orientation (yaw: %f)"
          [position_x msg; position_y msg; robot_pose_ s]).

Definition update_velocity : M unit :=
  s <- get ;;
  let factor := pow BASE_FACTOR (since_new_scan s) in
  if near_start s then
    send (Info "Near start detected, stopping the robot." []) ;;
    update_cmd_vel 0.0 0.0 factor
  else if scan_data_ s !!! LEFT_FRONT >? 0.9 then
    send (Info "Left front clear, turning left. Linear: 0.2, Angular: 1.5" []) ;;
    update_cmd_vel 0.2 1.5 factor
  else if scan_data_ s !!! FRONT <? 0.7 then
    send (Info "Obstacle ahead, turning right. Linear: 0.0, Angular: -1.5" []) ;;
    update_cmd_vel 0.0 (-1.5) factor
  else if scan_data_ s !!! FRONT_LEFT <? 0.6 then
    send (Info "Front left obstacle, turning right. Linear: 0.3, Angular: -1.5" []) ;;
    update_cmd_vel 0.3 (-1.5) factor
  else if scan_data_ s !!! FRONT_RIGHT <? 0.6 then
    send (Info "Front right obstacle, turning left. Linear: 0.3, Angular: 1.5" []) ;;
    update_cmd_vel 0.3 1.5 factor
  else if scan_data_ s !!! LEFT_FRONT >? 0.6 then
    send (Info "Left front clear, moving forward with slight left turn. Linear: 0.3, Angular: 1.5" []) ;;
    update_cmd_vel 0.3 1.5 factor
  else
    send (Info "Path clear, moving forward. Linear: 0.3, Angular: 0.0" []) ;;
    update_cmd_vel 0.3 0.0 factor.

Definition update_callback : M unit :=
  s <- get ;;
  if negb (initial_scan s) then ret tt
  else
    (if new_scan_data s then
       modify (set_new_scan_data false) ;;
       modify (set_since_new_scan 0)
     else
       modify (fun s => set_since_new_scan (wrap_int (since_new_scan s + 1)) s)) ;;
    update_velocity.

(* ----------------------------------------------------------------- *)
(** *** The node's life: construction, then [rclcpp::spin] *)

Inductive Event :=
| Scan (msg : LaserScan)      (* a message on "scan" *)
| Odom (msg : Odometry)       (* a message on "odom" *)
| Timer.                      (* the 100ms wall timer *)

Definition dispatch (ev : Event) : M unit :=
  match ev with
  | Scan msg => scan_callback msg
  | Odom msg => odom_callback msg
  | Timer => update_callback
  end.

(** [rclcpp::spin]: the callbacks run one after the other.  Neither the
    executor nor [main] catches: an exception thrown by a callback ends
    the process, and the events after it are never served. *)
Definition spin (evs : list Event) : M unit := for_each evs dispatch.

End Platform.

(** Modelled from the spec: the declarations of [initial_scan] and
    [new_scan_data] are not in wall_follower.hpp (which has
    [bool new_scan_data_ = false]); "if no scan has ever been received, skip
    the cycle entirely" makes both false until the first scan. *)
Definition no_scan_yet : bool := false.

(** The node as the constructor leaves it.  [start_x] and [start_y] are not
    initialised: they hold whatever the memory held. *)
Definition constructed (x0 y0 : float) : WallFollower :=
  {| robot_pose_ := 0.0;
     start_x := x0;
     start_y := y0;
     near_start := false;
     scan_data_ := replicate 12 0.0;
     new_scan_data := no_scan_yet;
     initial_scan := no_scan_yet;
     since_new_scan := 0;
     first := true;
     start_moving := true |}.

(* ================================================================= *)
(** ** Vocabulary of the specification *)

(** *** Executions *)

Definition is_scan (ev : Event) : bool :=
  match ev with Scan _ => true | _ => false end.

(** Some scan message was delivered among [evs]. *)
Definition scan_received (evs : list Event) : bool := existsb is_scan evs.

(** Two events that differ at most in the orientation of a pose update. *)
Definition same_but_orientation (e1 e2 : Event) : Prop :=
  match e1, e2 with
  | Scan m1, Scan m2 => m1 = m2
  | Odom m1, Odom m2 =>
      position_x m1 = position_x m2 /\ position_y m1 = position_y m2
  | Timer, Timer => True
  | _, _ => False
  end.

(** Two nodes that differ at most in [robot_pose_]. *)
Definition same_but_pose (s1 s2 : WallFollower) : Prop :=
  set_robot_pose_ 0.0 s1 = set_robot_pose_ 0.0 s2.

(** *** The near-start signal

    The tracker raising the signal shows as the line on stderr; a decision
    taken with the signal set shows as the "stopping" log line. *)
Inductive PulseEvent := Raised | Observed.

Definition pulse_event (o : Output) : option PulseEvent :=
  match o with
  | Stderr _ => Some Raised
  | Info fmt _ =>
      if String.eqb fmt "Near start detected, stopping the robot."
      then Some Observed else None
  | Publish _ => None
  end.

Definition pulse_log (os : list Output) : list PulseEvent := omap pulse_event os.

(** A pulse: between two raisings at most one decision sees the signal. *)
Fixpoint one_shot (l : list PulseEvent) : bool :=
  match l with
  | Observed :: ((Observed :: _) as rest) => false
  | _ :: rest => one_shot rest
  | [] => true
  end.

(** The stop command, whatever factor scales it. *)
Definition is_stop (t : Twist) : Prop :=
  exists factor, t = mkTwist (0.0 * factor) (0.0 * factor).

(** *** The rule ladder of the decision policy, as the specification lists
    it: conditions on the clearances and the signal, each with its
    (linear, angular) pair; the first that holds decides. *)
Definition Rule : Type := (list float -> bool -> bool) * (float * float).

Definition rule_ladder : list Rule :=
  [ (fun _ pulse => pulse,                          (0.0, 0.0));
    (fun c _ => c !!! LEFT_FRONT >? 0.9,            (0.2, 1.5));
    (fun c _ => c !!! FRONT <? 0.7,                 (0.0, -1.5));
    (fun c _ => c !!! FRONT_LEFT <? 0.6,            (0.3, -1.5));
    (fun c _ => c !!! FRONT_RIGHT <? 0.6,           (0.3, 1.5));
    (fun c _ => c !!! LEFT_FRONT >? 0.6,            (0.3, 1.5)) ].

Definition default_rule : float * float := (0.3, 0.0).

Fixpoint first_match (rules : list Rule) (c : list float) (pulse : bool)
  : float * float :=
  match rules with
  | [] => default_rule
  | (holds, v) :: rest => if holds c pulse then v else first_match rest c pulse
  end.

Definition DecisionPolicy (c : list float) (pulse : bool) : float * float :=
  first_match rule_ladder c pulse.

(** *** Sector clearances *)

(** The samples the forward sector aggregates: those at the indices
    350..359, then 0..9. *)
Definition front_window (v : list float) : list float :=
  (fun i => v !!! i) <$> (seq 350 10 ++ seq 0 10).

(** The samples sector [i] (1..11) aggregates: those at the indices
    30i-10 .. 30i+9. *)
Definition sector_window (i : nat) (v : list float) : list float :=
  (fun k => v !!! k) <$> seq (30 * i - 10) 20.

(** One step of a sector's loop, and the loop over samples at hand. *)
Definition lower (closest r : float) : float :=
  if r <? closest then r else closest.

Definition closest_in (closest : float) (samples : list float) : float :=
  foldl lower closest samples.

(** The twelve clearances a full sweep yields. *)
Definition sector_clearances (msg : LaserScan) : list float :=
  closest_in (range_max msg) (front_window (ranges msg)) ::
  ((fun i => closest_in (range_max msg) (sector_window i (ranges msg)))
     <$> seq 1 11).

(** [m] is a minimum of [l]: one of its elements, with none strictly below
    it (and so below or equal to every element, where all compare). *)
Definition is_minimum_of (m : float) (l : list float) : Prop :=
  m ∈ l /\
  Forall (fun x => (x <? m) = false) l /\
  (Forall (fun x => (x =? x) = true) l -> Forall (fun x => (m <=? x) = true) l).

(** *** A [pow] to run the node with

    Repeated binary64 multiplication.  It agrees with the C library at the
    exponents 0 and 1, where the result is exact. *)
Fixpoint pow_nat (x : float) (n : nat) : float :=
  match n with
  | O => 1.0
  | S k => x * pow_nat x k
  end.

Definition pow_ref (x : float) (n : Z) : float :=
  if (n <? 0)%Z then 1.0 / pow_nat x (Z.to_nat (- n))
  else pow_nat x (Z.to_nat n).

Definition yaw_ref (q : Quaternion) : float := 0.0.

(** *** Sample inputs *)

Definition upright : Quaternion := mkQuaternion 0.0 0.0 0.0 1.0.
Definition turned : Quaternion := mkQuaternion 0.0 0.0 1.0 0.0.

Definition pose (x y : float) : Odometry := mkOdometry x y upright.

(** A sweep of 360 equal samples. *)
Definition flat_scan (rmax r : float) : LaserScan :=
  mkLaserScan rmax (replicate 360 r).

(** A node that has seen a scan, with the given clearances, signal, flag
    and counter. *)
Definition running (c : list float) (pulse fresh : bool) (n : Z) : WallFollower :=
  {| robot_pose_ := 0.0; start_x := 0.0; start_y := 0.0;
     near_start := pulse; scan_data_ := c;
     new_scan_data := fresh; initial_scan := true; since_new_scan := n;
     first := false; start_moving := true |}.

(** There and back: the start, a point well away, a point back near it. *)
Definition lap : list Event :=
  [Odom (pose 0.0 0.0); Odom (pose 1.0 1.0); Odom (pose 0.05 0.05)].

(** *** The value of a double

    The rational a finite double stands for, to say how close a computed
    factor is to a decimal one. *)
Definition value (x : float) : option Q :=
  match Prim2SF x with
  | S754_zero _ => Some 0%Q
  | S754_finite s m e =>
      Some ((if s then - inject_Z (Z.pos m) else inject_Z (Z.pos m))
            * Qpower 2 e)%Q
  | _ => None
  end.

(** [x] is finite and within [eps] of [q]. *)
Definition close_to (x : float) (q eps : Q) : Prop :=
  match value x with
  | Some v => (Qabs (v - q) <= eps)%Q
  | None => False
  end.

(** [pow x k] is within one unit in the last place of the power it stands
    for (a relative error of at most 2^-52), as the C library's is. *)
Definition faithful_at (pow : float -> Z -> float) (x : float) (k : Z) : Prop :=
  match value x with
  | Some v => close_to (pow x k) (Qpower v k) (Qabs (Qpower v k) * Qpower 2 (-52))%Q
  | None => False
  end.

(** *** What a scan leaves behind *)

(** The node once a scan was announced: [initial_scan] and [new_scan_data]
    set, the rest as it was. *)
Definition arrived (s : WallFollower) : WallFollower :=
  set_new_scan_data true (if initial_scan s then s else set_initial_scan true s).

(** [scan_data_[i] = c] for the clearances [cs] in turn, from index [i]. *)
Fixpoint store_from (i : nat) (cs : list float) (sd : list float) : list float :=
  match cs with
  | [] => sd
  | c :: cs' => store_from (S i) cs' (<[i := c]> sd)
  end.


(** *** What a tick leaves behind *)

(** The node once [update_callback] has passed its gate and brought the
    staleness counter up to date. *)
Definition ticked (s : WallFollower) : WallFollower :=
  if new_scan_data s
  then set_since_new_scan 0 (set_new_scan_data false s)
  else set_since_new_scan (wrap_int (since_new_scan s + 1)) s.

(** The timer events of [evs] that come after a scan message, [seen]
    telling whether one came before [evs]. *)
Fixpoint ticks_after_scan (seen : bool) (evs : list Event) : nat :=
  match evs with
  | [] => 0
  | Scan _ :: rest => ticks_after_scan true rest
  | Odom _ :: rest => ticks_after_scan seen rest
  | Timer :: rest => (if seen then 1 else 0) + ticks_after_scan seen rest
  end.

(** A run with [out] sent before it. *)
Definition after {A} (out : list Output) (r : Run A) : Run A :=
  mkRun (ended r) (node r) (out ++ sent r).

(** *** Staying near the start *)

(** The pose [p] is not further than the threshold from [p0] along either
    axis: max(|x - x0|, |y - y0|) does not exceed [START_RANGE]. *)
Definition within_start_range (p0 p : Odometry) : Prop :=
  (fabs (position_x p - position_x p0) >? START_RANGE) = false /\
  (fabs (position_y p - position_y p0) >? START_RANGE) = false.

(** A sweep with one near sample, at index [i]. *)
Definition dented_scan (i : nat) : LaserScan :=
  mkLaserScan 3.5 (<[i := 0.5]> (replicate 360 1.0)).

(* ================================================================= *)
(** ** Further vocabulary *)

(** *** The phases of the start-proximity tracker

    The two statics of [odom_callback] read as the phase the tracker is in:
    about to record a start, waiting for the robot to leave it, or waiting
    for the robot to come back. *)
Inductive Phase := Recording | Waiting | Departed.

Definition phase (s : WallFollower) : Phase :=
  if first s then Recording
  else if start_moving s then Waiting
  else Departed.

Definition next_phase (p : Phase) : Phase :=
  match p with
  | Recording => Waiting
  | Waiting => Departed
  | Departed => Recording
  end.

(** The two tests of [odom_callback] on a pose, against a start point. *)
Definition beyond_range (x0 y0 : float) (p : Odometry) : bool :=
  (fabs (position_x p - x0) >? START_RANGE)
  || (fabs (position_y p - y0) >? START_RANGE).

Definition inside_range (x0 y0 : float) (p : Odometry) : bool :=
  (fabs (position_x p - x0) <? START_RANGE)
  && (fabs (position_y p - y0) <? START_RANGE).

(** The statics as the tracker keeps them: it never asks for a new start
    while it believes the robot gone. *)
Definition tracker_ok (s : WallFollower) : Prop :=
  first s = true -> start_moving s = true.

(** *** The samples a sweep is read at *)

(** The indices some sector's beam covers: below 360, and not in the ten
    indices that separate two beams. *)
Definition read_index (k : nat) : bool :=
  (k <? 360)%nat && ((k mod 30 <? 10)%nat || (20 <=? k mod 30)%nat).

(** The indices of the beams the decision reads: those of the sectors
    [FRONT], [FRONT_LEFT], [LEFT_FRONT] and [FRONT_RIGHT]. *)
Definition decisive_index (k : nat) : bool :=
  (k <? 10)%nat
  || (20 <=? k)%nat && (k <? 40)%nat
  || (50 <=? k)%nat && (k <? 70)%nat
  || (320 <=? k)%nat && (k <? 340)%nat
  || (350 <=? k)%nat && (k <? 360)%nat.

Definition decisive_sectors : list nat :=
  [FRONT; FRONT_LEFT; LEFT_FRONT; FRONT_RIGHT].

(** Two sweeps the decision cannot tell apart: as long, with the same
    [range_max] and the same samples in the beams it reads. *)
Definition same_where_decisive (m1 m2 : LaserScan) : Prop :=
  range_max m1 = range_max m2 /\
  length (ranges m1) = length (ranges m2) /\
  forall k, decisive_index k = true -> ranges m1 !!! k = ranges m2 !!! k.

Definition same_decisive_event (e1 e2 : Event) : Prop :=
  match e1, e2 with
  | Scan m1, Scan m2 => same_where_decisive m1 m2
  | Odom m1, Odom m2 => m1 = m2
  | Timer, Timer => True
  | _, _ => False
  end.

(** Two nodes that differ at most in the clearances the decision does not
    read. *)
Definition same_but_unread (s1 s2 : WallFollower) : Prop :=
  set_scan_data_ [] s1 = set_scan_data_ [] s2 /\
  length (scan_data_ s1) = 12%nat /\
  length (scan_data_ s2) = 12%nat /\
  Forall (fun i => scan_data_ s1 !!! i = scan_data_ s2 !!! i) decisive_sectors.

(** *** A decision, scaled *)
Definition scaled (v : float * float) (factor : float) : Twist :=
  mkTwist (v.1 * factor) (v.2 * factor).

(** *** More sample inputs *)

(** A sweep of 360 samples, 1.0 but for the given ones. *)
Definition sweep_with (rmax : float) (dents : list (nat * float)) : LaserScan :=
  mkLaserScan rmax
    (foldr (fun d v => <[d.1 := d.2]> v) (replicate 360 1.0) dents).

(** A lap around the start (0, 0): two poses near it, one well away, one
    half way back, one back near it. *)
Definition lap_stay : list Odometry := [pose 0.1 0.1; pose (-0.2) 0.05].
Definition lap_wander : list Odometry := [pose 0.5 0.1; pose 0.1 (-0.2)].

(** *** Events that can be served *)

(** A scan message has the 360 samples the beams index; the other events
    ask for nothing. *)
Definition long_enough (ev : Event) : bool :=
  match ev with
  | Scan msg => (360 <=? length (ranges msg))%nat
  | _ => true
  end.

(* ================================================================= *)
(** * Properties *)

(** ** The order of doubles

    [<], [<=] and [==] on binary64, through their specification over
    [spec_float]: a strict order with NaN comparable to nothing. *)

Ltac double_cases :=
  rewrite ?ltb_spec, ?leb_spec, ?FloatAxioms.eqb_spec in *;
  unfold SFltb, SFleb, SFeqb, SFcompare in *;
  repeat match goal with
  | |- context [Prim2SF ?x] =>
      let s := fresh "s" in let m := fresh "m" in let e := fresh "e" in
      destruct (Prim2SF x) as [s|s| |s m e]; try destruct s
  | H : context [Prim2SF ?x] |- _ =>
      let s := fresh "s" in let m := fresh "m" in let e := fresh "e" in
      destruct (Prim2SF x) as [s|s| |s m e]; try destruct s
  end;
  try reflexivity; try discriminate;
  change (Pos.compare_cont Eq) with Pos.compare in *;
  repeat match goal with
  | |- context [Z.compare ?a ?b] => destruct (Z.compare_spec a b)
  | H : context [Z.compare ?a ?b] |- _ => destruct (Z.compare_spec a b)
  | |- context [Pos.compare ?a ?b] => destruct (Pos.compare_spec a b)
  | H : context [Pos.compare ?a ?b] |- _ => destruct (Pos.compare_spec a b)
  end;
  simpl in *; try reflexivity; try discriminate; try lia.

Lemma double_ltb_trans (x y z : float) :
  (x <? y) = true -> (y <? z) = true -> (x <? z) = true.
Proof. intros H1 H2. double_cases. Qed.

Lemma double_ltb_leb_trans (x y z : float) :
  (x <? y) = true -> (y <=? z) = true -> (x <=? z) = true.
Proof. intros H1 H2. double_cases. Qed.

Lemma double_leb_refl (a x : float) : (a <=? x) = true -> (x <=? x) = true.
Proof. intros H1. double_cases. Qed.

Lemma double_ltb_between (x c m : float) :
  (c =? c) = true -> (x <? m) = true -> (x <? c) = false -> (c <? m) = true.
Proof. intros H0 H1 H2. double_cases. Qed.

Lemma double_ltb_nan (y c : float) : (c =? c) = false -> (y <? c) = false.
Proof. intros H0. double_cases. Qed.

Lemma double_leb_not_ltb (a b : float) :
  (a <=? b) = true -> (a <? b) = false -> (b =? a) = true.
Proof. intros H1 H2. double_cases. Qed.

Lemma double_not_ltb_leb (x m : float) :
  (x =? x) = true -> (m =? m) = true -> (x <? m) = false -> (m <=? x) = true.
Proof. intros H0 H1 H2. double_cases. Qed.

(** ** The loop of a sector *)

Lemma closest_in_cons (x : float) (w : list float) (c : float) :
  closest_in c (x :: w) = closest_in (lower c x) w.
Proof. reflexivity. Qed.

Lemma closest_in_elem (w : list float) (c : float) : closest_in c w ∈ c :: w.
Proof.
  revert c. induction w as [|x w IH]; intros c; [by left|].
  rewrite closest_in_cons. specialize (IH (lower c x)).
  apply elem_of_cons in IH as [IH|IH].
  - rewrite IH. unfold lower. destruct (x <? c); [right; left|left].
  - by do 2 right.
Qed.

Lemma closest_in_nan (w : list float) (c : float) :
  (c =? c) = false -> closest_in c w = c.
Proof.
  intros Hc. induction w as [|x w IH]; [reflexivity|].
  rewrite closest_in_cons. unfold lower. by rewrite (double_ltb_nan x c Hc).
Qed.

Lemma closest_in_none_below (w : list float) (c : float) :
  Forall (fun x => (x <? closest_in c w) = false) (c :: w).
Proof.
  revert c. induction w as [|x w IH]; intros c.
  - cbn. repeat constructor. double_cases.
  - specialize (IH (lower c x)). rewrite closest_in_cons.
    apply Forall_cons in IH as [Hhead Hw].
    set (m := closest_in (lower c x) w) in *.
    unfold lower in Hhead. unfold lower in m.
    destruct (x <? c) eqn:Hxc.
    + repeat constructor; [|done..].
      destruct (c <? m) eqn:Hcm; [|done].
      by rewrite (double_ltb_trans x c m) in Hhead.
    + repeat constructor; [done| |done].
      destruct (x <? m) eqn:Hxm; [|done].
      destruct (c =? c) eqn:Hc.
      * by rewrite (double_ltb_between x c m) in Hhead.
      * subst m. rewrite closest_in_nan in Hxm by done. congruence.
Qed.

Lemma closest_in_bounded (w : list float) (c hi : float) :
  (c <=? hi) = true -> (closest_in c w <=? hi) = true.
Proof.
  revert c. induction w as [|x w IH]; intros c Hc; [done|].
  rewrite closest_in_cons. apply IH. unfold lower. destruct (x <? c) eqn:Hxc; [|done].
  by apply double_ltb_leb_trans with c.
Qed.

Lemma closest_in_flat (w : list float) (c : float) :
  Forall (fun x => x = c) w -> closest_in c w = c.
Proof.
  induction 1 as [|x w -> _ IH]; [reflexivity|].
  rewrite closest_in_cons. unfold lower. by destruct (c <? c).
Qed.

Lemma closest_in_minimum (w : list float) (c : float) :
  is_minimum_of (closest_in c w) (c :: w).
Proof.
  split; [apply closest_in_elem|]. split; [apply closest_in_none_below|].
  intros Hnum.
  assert (Hm : (closest_in c w =? closest_in c w) = true).
  { eapply Forall_forall in Hnum; [exact Hnum|apply closest_in_elem]. }
  pose proof (closest_in_none_below w c) as Hnone.
  apply Forall_forall. intros x Hx.
  apply double_not_ltb_leb; [|exact Hm|].
  - by eapply Forall_forall in Hnum.
  - by eapply Forall_forall in Hnone.
Qed.

(** ** The scan callback *)

Lemma at_in_range (v : list float) (i : nat) :
  (i < length v)%nat -> at_ v (Z.of_nat i) = inr (v !!! i).
Proof.
  intros Hi. unfold at_.
  destruct (Z.ltb_spec (Z.of_nat i) 0) as [Hneg|_]; [lia|].
  rewrite Nat2Z.id.
  destruct (lookup_lt_is_Some_2 v i Hi) as [x Hx].
  rewrite Hx. f_equal. symmetry. by apply list_lookup_total_correct.
Qed.

Lemma at_past_end (v : list float) (i : nat) :
  (length v <= i)%nat -> at_ v (Z.of_nat i) = inl (out_of_range (Z.of_nat i) (length v)).
Proof.
  intros Hi. unfold at_.
  destruct (Z.ltb_spec (Z.of_nat i) 0) as [Hneg|_]; [lia|].
  rewrite Nat2Z.id. by rewrite lookup_ge_None_2.
Qed.

Lemma closest_over_in_range (v : list float) (idx : list nat) (c : float) :
  Forall (fun i => (i < length v)%nat) idx ->
  closest_over v (Z.of_nat <$> idx) c = inr (closest_in c ((fun i => v !!! i) <$> idx)).
Proof.
  intros H. revert c. induction H as [|i idx Hi _ IH]; intros c; [reflexivity|].
  cbn. rewrite at_in_range by done. apply IH.
Qed.

(** The first loop of a sweep that is too short throws at the first index
    the sweep does not have. *)
Lemma closest_over_short (v : list float) (lo n : nat) (c : float) :
  (0 < n)%nat -> (length v < lo + n)%nat ->
  exists i, closest_over v (Z.of_nat <$> seq lo n) c = inl (out_of_range i (length v)).
Proof.
  revert lo c. induction n as [|n IH]; intros lo c Hn Hlen; [lia|].
  cbn. destruct (Nat.lt_ge_cases lo (length v)) as [Hin|Hout].
  - rewrite at_in_range by done. apply IH; lia.
  - rewrite at_past_end by done. by eexists.
Qed.

Lemma seqZ_350 : seqZ (360 - BEAM_WIDTH) BEAM_WIDTH = Z.of_nat <$> seq 350 10.
Proof. reflexivity. Qed.
Lemma seqZ_0 : seqZ 0 BEAM_WIDTH = Z.of_nat <$> seq 0 10.
Proof. reflexivity. Qed.

Lemma scan_callback_short (msg : LaserScan) :
  (length (ranges msg) < 360)%nat ->
  exists i, forall s,
    scan_callback msg s =
    mkRun (Thrown (out_of_range i (length (ranges msg)))) (arrived s) [].
Proof.
  intros Hlen.
  destruct (closest_over_short (ranges msg) 350 10 (range_max msg)) as [i Hi];
    [lia|lia|].
  exists i. intros s. unfold scan_callback. rewrite seqZ_350.
  unfold bind, get, lift, arrived; cbn -[closest_over seq].
  destruct (initial_scan s); cbn -[closest_over seq]; rewrite Hi; reflexivity.
Qed.

Lemma scan_callback_full (msg : LaserScan) (s : WallFollower) :
  (360 <= length (ranges msg))%nat ->
  scan_callback msg s =
  mkRun (Normal tt)
        (set_scan_data_ (store_from 0 (sector_clearances msg) (scan_data_ s)) (arrived s))
        [Info "Closest distance in front: %f"
              [store_from 0 (sector_clearances msg) (scan_data_ s) !!! 0%nat]].
Proof.
  intros Hlen.
  assert (Hfront : forall c, closest_over (ranges msg) (seqZ (360 - BEAM_WIDTH) BEAM_WIDTH) c
            = inr (closest_in c ((fun i => ranges msg !!! i) <$> seq 350 10))).
  { intros c. rewrite seqZ_350. apply closest_over_in_range.
    apply Forall_forall. intros i Hi%elem_of_seq. lia. }
  assert (Hfront' : forall c, closest_over (ranges msg) (seqZ 0 BEAM_WIDTH) c
            = inr (closest_in c ((fun i => ranges msg !!! i) <$> seq 0 10))).
  { intros c. rewrite seqZ_0. apply closest_over_in_range.
    apply Forall_forall. intros i Hi%elem_of_seq. lia. }
  assert (Hsec : forall i c, (1 <= i <= 11)%nat ->
            closest_over (ranges msg)
              (seqZ (scan_angle !!! i - BEAM_WIDTH) (2 * BEAM_WIDTH)) c
            = inr (closest_in c (sector_window i (ranges msg)))).
  { intros i c Hi. unfold sector_window.
    rewrite <- closest_over_in_range.
    - f_equal.
      assert (Hcases : i ∈ seq 1 11) by (apply elem_of_seq; lia).
      clear -Hcases. cbn in Hcases.
      repeat (apply elem_of_cons in Hcases as [->|Hcases]; [reflexivity|]).
      by apply elem_of_nil in Hcases.
    - apply Forall_forall. intros k Hk%elem_of_seq. lia. }
  destruct s as [rp sx sy ns sd nsd isc sns fst sm].
  unfold scan_callback, arrived.
  destruct isc;
    cbn -[closest_over seqZ scan_angle closest_in front_window sector_window insert lookup_total];
    rewrite Hfront; cbn -[closest_over seqZ scan_angle closest_in front_window sector_window insert lookup_total];
    rewrite Hfront'; cbn -[closest_over seqZ scan_angle closest_in front_window sector_window insert lookup_total];
    do 11 (rewrite Hsec by lia; cbn -[closest_over seqZ scan_angle closest_in front_window sector_window insert lookup_total]).
  all: reflexivity.
Qed.

Lemma store_from_full (cs sd : list float) :
  length cs = length sd -> store_from 0 cs sd = cs.
Proof.
  enough (H : forall pre cs sd, length cs = length sd ->
             store_from (length pre) cs (pre ++ sd) = pre ++ cs).
  { intros Hlen. apply (H [] cs sd Hlen). }
  clear. intros pre cs. revert pre. induction cs as [|c cs IH]; intros pre [|x sd] Hlen;
    try discriminate; [reflexivity|].
  cbn. rewrite insert_app_r_alt by lia. rewrite Nat.sub_diag. cbn.
  specialize (IH (pre ++ [c]) sd). rewrite length_app in IH. cbn in IH.
  rewrite Nat.add_1_r, <- !app_assoc in IH. cbn in IH. apply IH. by injection Hlen.
Qed.

Lemma length_sector_clearances (msg : LaserScan) : length (sector_clearances msg) = 12%nat.
Proof. reflexivity. Qed.

Lemma window_samples (P : float -> Prop) (v : list float) (idx : list nat) :
  Forall (fun i => (i < length v)%nat) idx ->
  Forall P v -> Forall P ((fun i => v !!! i) <$> idx).
Proof.
  intros Hidx Hv. apply Forall_fmap. eapply Forall_impl; [exact Hidx|].
  intros i Hi. apply (proj1 (Forall_forall P v) Hv).
  apply list_elem_of_lookup_total_2. exact Hi.
Qed.

Lemma front_window_samples (P : float -> Prop) (v : list float) :
  (360 <= length v)%nat -> Forall P v -> Forall P (front_window v).
Proof.
  intros Hlen. apply window_samples.
  apply Forall_forall. intros i [Hi|Hi]%elem_of_app; apply elem_of_seq in Hi; lia.
Qed.

Lemma sector_window_samples (P : float -> Prop) (v : list float) (i : nat) :
  (360 <= length v)%nat -> (i <= 11)%nat -> Forall P v -> Forall P (sector_window i v).
Proof.
  intros Hlen Hi. apply window_samples.
  apply Forall_forall. intros k Hk%elem_of_seq. lia.
Qed.

(** Every clearance of a full sweep is the minimum of [range_max] and of
    samples of the sweep. *)
Lemma sector_clearances_each (P : float -> Prop) (msg : LaserScan) :
  (360 <= length (ranges msg))%nat ->
  (forall w, Forall (fun x => x ∈ ranges msg) w -> P (closest_in (range_max msg) w)) ->
  Forall P (sector_clearances msg).
Proof.
  intros Hlen HP. unfold sector_clearances. constructor.
  - apply HP. apply front_window_samples; [done|]. by apply Forall_forall.
  - apply Forall_fmap, Forall_forall. intros i Hi%elem_of_seq.
    apply (HP (sector_window i (ranges msg))). apply sector_window_samples; [done|lia|]. by apply Forall_forall.
Qed.


(** ** What a run has sent *)

Lemma commands_app (o1 o2 : list Output) :
  commands (o1 ++ o2) = commands o1 ++ commands o2.
Proof. apply omap_app. Qed.

Lemma pulse_log_app (o1 o2 : list Output) :
  pulse_log (o1 ++ o2) = pulse_log o1 ++ pulse_log o2.
Proof. apply omap_app. Qed.

(** ** The timer callback *)

Section Timer.

Variable pow : float -> Z -> float.

(** The decision is the ladder's, scaled; the log line tells whether the
    near-start signal took it. *)
Lemma update_velocity_decides (s : WallFollower) :
  exists fmt,
    String.eqb fmt "Near start detected, stopping the robot." = near_start s /\
    update_velocity pow s =
    mkRun (Normal tt) s
      [Info fmt [];
       Publish (mkTwist
         ((DecisionPolicy (scan_data_ s) (near_start s)).1
            * pow BASE_FACTOR (since_new_scan s))
         ((DecisionPolicy (scan_data_ s) (near_start s)).2
            * pow BASE_FACTOR (since_new_scan s)))].
Proof.
  unfold update_velocity, DecisionPolicy, rule_ladder, first_match,
    update_cmd_vel, bind, get, send.
  destruct (near_start s); [eexists; split; [|reflexivity]; reflexivity|].
  repeat (match goal with
          | |- context [if ?b then _ else _] => destruct b eqn:?
          end; [eexists; split; [|reflexivity]; reflexivity|]).
  eexists; split; [|reflexivity]; reflexivity.
Qed.

Lemma update_callback_idle (s : WallFollower) :
  initial_scan s = false -> update_callback pow s = mkRun (Normal tt) s [].
Proof. intros Hs. unfold update_callback, bind, get. by rewrite Hs. Qed.

Lemma update_callback_runs (s : WallFollower) :
  initial_scan s = true ->
  update_callback pow s = update_velocity pow (ticked s).
Proof.
  intros Hs. unfold update_callback, ticked, bind, get, modify. rewrite Hs.
  cbn -[update_velocity].
  destruct (new_scan_data s); cbn -[update_velocity];
    match goal with |- context [update_velocity pow ?s'] =>
      by destruct (update_velocity pow s') as [[]] end.
Qed.

End Timer.

(** ** The 32-bit counter *)

Lemma wrap_int_small (z : Z) : (INT_MIN <= z <= INT_MAX)%Z -> wrap_int z = z.
Proof.
  unfold wrap_int, INT_MIN, INT_MAX. intros Hz.
  rewrite Z.mod_small; lia.
Qed.

Lemma wrap_int_range (z : Z) : (INT_MIN <= wrap_int z <= INT_MAX)%Z.
Proof.
  unfold wrap_int, INT_MIN, INT_MAX.
  pose proof (Z.mod_pos_bound (z + 2 ^ 31) (2 ^ 32) ltac:(lia)). lia.
Qed.

(** ** Telling doubles apart *)

Lemma twist_differs (t1 t2 : Twist) :
  (linear_x t1 <? linear_x t2) || (linear_x t2 <? linear_x t1)
  || (angular_z t1 <? angular_z t2) || (angular_z t2 <? angular_z t1) = true ->
  t1 <> t2.
Proof.
  intros Hlt ->. rewrite !orb_diag in Hlt.
  apply orb_true_iff in Hlt as [Hlt|Hlt]; revert Hlt; double_cases.
Qed.

(** ** The factor after three missed scans *)

(** The double 0.8 cubed is 0.512 to 16 digits; a [pow] that is right to
    the last place cannot be further than 1e-15 from it. *)
Lemma faithful_cube_close (pow : float -> Z -> float) :
  faithful_at pow BASE_FACTOR 3 ->
  close_to (pow BASE_FACTOR 3%Z) (512 # 1000) (1 # 1000000000000000).
Proof.
  unfold faithful_at, close_to.
  destruct (value BASE_FACTOR) as [b|] eqn:Hb; [|done].
  vm_compute in Hb. injection Hb as <-.
  destruct (value (pow BASE_FACTOR 3%Z)) as [q|]; [|done].
  set (b := (_ # _)%Q).
  let v := eval vm_compute in (Qred (b ^ 3))%Q in set (b3 := v).
  let v := eval vm_compute in (Qred (Qabs (b ^ 3) * Qpower 2 (-52)))%Q in
  set (eps := v).
  assert (Hb3 : (b ^ 3 == b3)%Q) by (subst b b3; vm_compute; reflexivity).
  assert (Heps : (Qabs (b ^ 3) * 2 ^ (-52) == eps)%Q)
    by (subst b eps; vm_compute; reflexivity).
  rewrite Heps, Hb3. clear Hb3 Heps. subst b3 eps. clearbody b.
  intros Hq. apply Qabs_Qle_condition in Hq. apply Qabs_Qle_condition.
  lra.
Qed.

(** ** The pose callback *)

Section Callbacks.

Variable pow : float -> Z -> float.
Variable getYaw : Quaternion -> float.

Ltac branches :=
  repeat match goal with
         | |- context [if ?b then _ else _] => destruct b eqn:?; cbn
         end.

(** What [odom_callback] leaves alone: it returns, publishes nothing,
    touches neither the clearances nor the scan flags nor the counter, and
    never clears [near_start]. *)
Lemma odom_callback_quiet (msg : Odometry) (s : WallFollower) :
  let r := odom_callback getYaw msg s in
  ended r = Normal tt /\
  commands (sent r) = [] /\
  scan_data_ (node r) = scan_data_ s /\
  new_scan_data (node r) = new_scan_data s /\
  initial_scan (node r) = initial_scan s /\
  since_new_scan (node r) = since_new_scan s /\
  (near_start s = true -> near_start (node r) = true).
Proof.
  destruct s as [rp sx sy ns sd nsd isc sns fst sm].
  unfold odom_callback, bind, get, modify, send, ret; cbn.
  branches; repeat split; done.
Qed.

(** While the tracker waits for the departure and the pose stays within
    range of the recorded start, nothing changes but [robot_pose_]. *)
Lemma odom_callback_waiting (msg : Odometry) (s : WallFollower) :
  first s = false ->
  start_moving s = true ->
  (fabs (position_x msg - start_x s) >? START_RANGE) = false ->
  (fabs (position_y msg - start_y s) >? START_RANGE) = false ->
  let r := odom_callback getYaw msg s in
  ended r = Normal tt /\
  node r = set_robot_pose_ (getYaw (orientation msg)) s /\
  pulse_log (sent r) = [].
Proof.
  destruct s as [rp sx sy ns sd nsd isc sns fst sm]. cbn.
  intros -> -> Hx Hy.
  unfold odom_callback, bind, get, modify, send, ret; cbn.
  rewrite Hx, Hy. cbn. done.
Qed.

(** The first pose after construction, or after a return, is recorded as
    the start. *)
Lemma odom_callback_first (msg : Odometry) (s : WallFollower) :
  first s = true ->
  let r := odom_callback getYaw msg s in
  ended r = Normal tt /\
  node r = set_first false (set_start_y (position_y msg)
             (set_start_x (position_x msg)
                (set_robot_pose_ (getYaw (orientation msg)) s))) /\
  pulse_log (sent r) = [].
Proof.
  destruct s as [rp sx sy ns sd nsd isc sns fst sm]. cbn. intros ->.
  unfold odom_callback, bind, get, modify, send, ret; cbn. done.
Qed.

(** Orientation reaches [robot_pose_] and the log, nothing else. *)
Lemma odom_callback_orientation (m1 m2 : Odometry) (s1 s2 : WallFollower) :
  position_x m1 = position_x m2 ->
  position_y m1 = position_y m2 ->
  same_but_pose s1 s2 ->
  let r1 := odom_callback getYaw m1 s1 in
  let r2 := odom_callback getYaw m2 s2 in
  ended r1 = ended r2 /\
  commands (sent r1) = commands (sent r2) /\
  same_but_pose (node r1) (node r2).
Proof.
  destruct m1 as [x1 y1 q1], m2 as [x2 y2 q2]. cbn. intros -> ->.
  destruct s1 as [rp1 sx1 sy1 ns1 sd1 nsd1 isc1 sns1 fst1 sm1].
  destruct s2 as [rp2 sx2 sy2 ns2 sd2 nsd2 isc2 sns2 fst2 sm2].
  unfold same_but_pose. cbn. intros [= -> -> -> -> -> -> -> -> ->].
  unfold odom_callback, bind, get, modify, send, ret; cbn.
  branches; repeat split; done.
Qed.

(** ** Dispatching one event *)

Lemma spin_cons (ev : Event) (evs : list Event) (s : WallFollower) :
  spin pow getYaw (ev :: evs) s =
  match ended (dispatch pow getYaw ev s) with
  | Normal _ =>
      after (sent (dispatch pow getYaw ev s))
            (spin pow getYaw evs (node (dispatch pow getYaw ev s)))
  | Thrown e =>
      mkRun (Thrown e) (node (dispatch pow getYaw ev s))
            (sent (dispatch pow getYaw ev s))
  end.
Proof.
  unfold spin; cbn [for_each]. unfold bind, after.
  destruct (dispatch pow getYaw ev s) as [[[]|e] s' out]; cbn; [|done].
  by destruct (for_each evs (dispatch pow getYaw) s').
Qed.

(** An event that is served to its end: a scan sets [initial_scan], the
    others keep it; only a tick past the gate publishes, and it publishes
    once. *)
Lemma dispatch_served (ev : Event) (s : WallFollower) :
  let r := dispatch pow getYaw ev s in
  ended r = Normal tt ->
  initial_scan (node r) = initial_scan s || is_scan ev /\
  length (commands (sent r)) =
    match ev with
    | Timer => if initial_scan s then 1%nat else 0%nat
    | _ => 0%nat
    end.
Proof.
  destruct ev as [msg|msg|]; cbn [dispatch is_scan].
  - destruct (Nat.lt_ge_cases (length (ranges msg)) 360) as [Hshort|Hfull].
    + destruct (scan_callback_short msg Hshort) as [i Hrun]. rewrite Hrun. cbn. done.
    + rewrite scan_callback_full by done. cbn. intros _.
      split; [|done]. unfold arrived. destruct s as [? ? ? ? ? ? [] ? ? ?]; done.
  - pose proof (odom_callback_quiet msg s) as (_ & Hcmd & _ & _ & Hscan & _).
    cbn zeta in *. intros _. by rewrite Hcmd, Hscan, orb_false_r.
  - intros _. destruct (initial_scan s) eqn:Hscan.
    + rewrite update_callback_runs by done.
      destruct (update_velocity_decides pow (ticked s)) as (fmt & _ & ->). cbn.
      split; [|done]. unfold ticked. by destruct (new_scan_data s).
    + rewrite update_callback_idle by done. cbn. by rewrite Hscan.
Qed.

(** Once [near_start] is set, no event clears it, and whatever is
    published is the stop command. *)
Lemma dispatch_latched (ev : Event) (s : WallFollower) :
  near_start s = true ->
  let r := dispatch pow getYaw ev s in
  near_start (node r) = true /\ Forall is_stop (commands (sent r)).
Proof.
  intros Hns. destruct ev as [msg|msg|]; cbn [dispatch].
  - destruct (Nat.lt_ge_cases (length (ranges msg)) 360) as [Hshort|Hfull].
    + destruct (scan_callback_short msg Hshort) as [i Hrun]. rewrite Hrun. cbn.
      split; [|constructor]. unfold arrived.
      destruct s as [? ? ? ? ? ? [] ? ? ?]; done.
    + rewrite scan_callback_full by done. cbn.
      split; [|constructor]. unfold arrived.
      destruct s as [? ? ? ? ? ? [] ? ? ?]; done.
  - pose proof (odom_callback_quiet msg s) as (_ & Hcmd & _ & _ & _ & _ & Hkeep).
    cbn zeta in *. rewrite Hcmd. split; [by apply Hkeep|constructor].
  - destruct (initial_scan s) eqn:Hscan.
    + rewrite update_callback_runs by done.
      assert (Hns' : near_start (ticked s) = true)
        by (unfold ticked; by destruct (new_scan_data s)).
      destruct (update_velocity_decides pow (ticked s)) as (fmt & _ & ->).
      cbn [node sent]. split; [done|]. rewrite Hns'. cbn.
      repeat constructor. by eexists.
    + rewrite update_callback_idle by done. cbn. split; [done|constructor].
Qed.

(** Two nodes that differ in [robot_pose_] only serve two events that
    differ in orientation only alike. *)
Lemma dispatch_orientation (e1 e2 : Event) (s1 s2 : WallFollower) :
  same_but_orientation e1 e2 ->
  same_but_pose s1 s2 ->
  let r1 := dispatch pow getYaw e1 s1 in
  let r2 := dispatch pow getYaw e2 s2 in
  ended r1 = ended r2 /\
  commands (sent r1) = commands (sent r2) /\
  same_but_pose (node r1) (node r2).
Proof.
  destruct e1 as [m1|m1|], e2 as [m2|m2|]; cbn [same_but_orientation dispatch];
    try done.
  - intros <- Hsim.
    assert (Hsd : scan_data_ s1 = scan_data_ s2 /\ initial_scan s1 = initial_scan s2).
    { destruct s1, s2. unfold same_but_pose in Hsim. cbn in *.
      by injection Hsim as -> -> -> -> -> -> -> -> ->. }
    destruct Hsd as [Hsd Hisc].
    assert (Harr : same_but_pose (arrived s1) (arrived s2)).
    { destruct s1, s2. unfold same_but_pose, arrived in *. cbn in *.
      injection Hsim as -> -> -> -> -> -> -> -> ->. by destruct initial_scan1. }
    destruct (Nat.lt_ge_cases (length (ranges m1)) 360) as [Hshort|Hfull].
    + destruct (scan_callback_short m1 Hshort) as [i Hrun].
      rewrite !Hrun. cbn. done.
    + rewrite !scan_callback_full by done. cbn. rewrite Hsd.
      split; [done|]. split; [done|].
      destruct s1, s2. unfold same_but_pose, arrived in *. cbn in *.
      injection Hsim as -> -> -> -> -> -> -> -> ->. by destruct initial_scan1.
  - intros [Hx Hy] Hsim. by apply odom_callback_orientation.
  - intros _ Hsim.
    assert (Hisc : initial_scan s1 = initial_scan s2).
    { destruct s1, s2. unfold same_but_pose in Hsim. cbn in *.
      by injection Hsim as -> -> -> -> -> -> -> -> ->. }
    assert (Htick : same_but_pose (ticked s1) (ticked s2)).
    { destruct s1, s2. unfold same_but_pose, ticked in *. cbn in *.
      injection Hsim as -> -> -> -> -> -> -> -> ->. by destruct new_scan_data1. }
    destruct (initial_scan s1) eqn:Hscan1; symmetry in Hisc.
    + rewrite !update_callback_runs by done.
      destruct (update_velocity_decides pow (ticked s1)) as (fmt1 & _ & ->).
      destruct (update_velocity_decides pow (ticked s2)) as (fmt2 & _ & ->).
      cbn. split; [done|]. split; [|done].
      destruct (ticked s1), (ticked s2). unfold same_but_pose in Htick. cbn in *.
      by injection Htick as -> -> -> -> -> -> -> -> ->.
    + rewrite !update_callback_idle by done. cbn. done.
Qed.

(** ** Whole executions *)

(** Poses that stay within range of the recorded start leave the tracker
    waiting: no signal, whatever their number. *)
Lemma spin_waiting (poses : list Odometry) (s : WallFollower) :
  first s = false ->
  start_moving s = true ->
  Forall (fun p =>
            (fabs (position_x p - start_x s) >? START_RANGE) = false /\
            (fabs (position_y p - start_y s) >? START_RANGE) = false) poses ->
  let r := spin pow getYaw (Odom <$> poses) s in
  ended r = Normal tt /\
  pulse_log (sent r) = [] /\
  near_start (node r) = near_start s.
Proof.
  intros Hfirst Hmoving Hnear. revert s Hfirst Hmoving Hnear.
  induction poses as [|p poses IH]; intros s Hfirst Hmoving Hnear; [done|].
  apply Forall_cons in Hnear as [[Hx Hy] Hnear].
  rewrite fmap_cons, spin_cons. cbn [dispatch].
  destruct (odom_callback_waiting p s Hfirst Hmoving Hx Hy) as (Hend & Hnode & Hlog).
  rewrite Hend, Hnode. cbn [after ended node sent].
  rewrite pulse_log_app, Hlog.
  destruct (IH (set_robot_pose_ (getYaw (orientation p)) s)) as (IH1 & IH2 & IH3);
    [done..|].
  by rewrite IH1, IH2, IH3.
Qed.

(** What an execution served to its end has published: one command for
    each tick after a scan. *)
Lemma spin_served (evs : list Event) (s : WallFollower) :
  let r := spin pow getYaw evs s in
  ended r = Normal tt ->
  initial_scan (node r) = initial_scan s || scan_received evs /\
  length (commands (sent r)) = ticks_after_scan (initial_scan s) evs.
Proof.
  revert s. induction evs as [|ev evs IH]; intros s; cbn zeta.
  - intros _. cbn. by rewrite orb_false_r.
  - rewrite spin_cons.
    pose proof (dispatch_served ev s) as Hev. cbn zeta in Hev.
    destruct (ended (dispatch pow getYaw ev s)) as [[]|e]; [|done].
    destruct (Hev eq_refl) as [Hscan Hcmd]. cbn [after ended node sent].
    intros Hend. destruct (IH _ Hend) as [IHscan IHcmd].
    rewrite commands_app, length_app, Hcmd, IHcmd, IHscan, Hscan.
    cbn [scan_received existsb]. split; [by rewrite orb_assoc|].
    destruct ev as [msg|msg|]; cbn [is_scan ticks_after_scan];
      rewrite ?orb_false_r, ?orb_true_r; done.
Qed.

(** Once set, [near_start] stays set to the end of the execution. *)
Lemma spin_latched (evs : list Event) (s : WallFollower) :
  near_start s = true ->
  let r := spin pow getYaw evs s in
  near_start (node r) = true /\ Forall is_stop (commands (sent r)).
Proof.
  revert s. induction evs as [|ev evs IH]; intros s Hns; cbn zeta.
  - cbn. split; [done|constructor].
  - rewrite spin_cons.
    destruct (dispatch_latched ev s Hns) as [Hns' Hstop].
    destruct (ended (dispatch pow getYaw ev s)) as [[]|e]; [|done].
    destruct (IH _ Hns') as [IHns IHstop]. cbn [after ended node sent].
    split; [done|]. rewrite commands_app. by apply Forall_app.
Qed.

(** Orientation makes no difference to what an execution publishes. *)
Lemma spin_orientation (evs1 evs2 : list Event) (s1 s2 : WallFollower) :
  Forall2 same_but_orientation evs1 evs2 ->
  same_but_pose s1 s2 ->
  let r1 := spin pow getYaw evs1 s1 in
  let r2 := spin pow getYaw evs2 s2 in
  ended r1 = ended r2 /\
  commands (sent r1) = commands (sent r2) /\
  same_but_pose (node r1) (node r2).
Proof.
  intros Hevs. revert s1 s2.
  induction Hevs as [|e1 e2 evs1 evs2 He _ IH]; intros s1 s2 Hsim; cbn zeta.
  - cbn. done.
  - rewrite !spin_cons.
    destruct (dispatch_orientation e1 e2 s1 s2 He Hsim) as (Hend & Hcmd & Hsim').
    rewrite <- Hend.
    destruct (ended (dispatch pow getYaw e1 s1)) as [[]|e]; [|done].
    destruct (IH _ _ Hsim') as (IHend & IHcmd & IHsim). cbn [after ended node sent].
    split; [done|]. split; [|done].
    by rewrite !commands_app, Hcmd, IHcmd.
Qed.

(** Ticks with no scan in between count up, one by one, as long as the
    counter fits an [int]. *)
Lemma spin_stale_ticks (k : nat) (s : WallFollower) :
  initial_scan s = true ->
  new_scan_data s = false ->
  (INT_MIN <= since_new_scan s)%Z ->
  (since_new_scan s + Z.of_nat k <= INT_MAX)%Z ->
  let r := spin pow getYaw (replicate k Timer) s in
  ended r = Normal tt /\
  initial_scan (node r) = true /\
  new_scan_data (node r) = false /\
  since_new_scan (node r) = (since_new_scan s + Z.of_nat k)%Z.
Proof.
  revert s. induction k as [|k IH]; intros s Hscan Hfresh Hlo Hhi; cbn zeta.
  - cbn. repeat split; try done. lia.
  - cbn [replicate]. rewrite spin_cons. cbn [dispatch].
    rewrite update_callback_runs by done.
    destruct (update_velocity_decides pow (ticked s)) as (fmt & _ & ->).
    cbn [ended node sent after].
    assert (Hticked : ticked s = set_since_new_scan (since_new_scan s + 1) s).
    { unfold ticked. rewrite Hfresh. f_equal. apply wrap_int_small. lia. }
    rewrite Hticked.
    destruct (IH (set_since_new_scan (since_new_scan s + 1) s))
      as (H1 & H2 & H3 & H4); try done.
    + cbn. lia.
    + cbn. lia.
    + cbn in H4. repeat split; try done. lia.
Qed.

End Callbacks.
(* ================================================================= *)
(** * The claims *)

Section Claims.

Variable pow : float -> Z -> float.
Variable getYaw : Quaternion -> float.

(** C1 (as the code has it): [near_start] is a level, not a pulse.  Once
    the tracker has set it, no callback clears it: it is still set at the
    end of every execution that follows, every command published on the way
    is the stop command, and the next tick of a node that has seen a scan
    observes it again. *)
Theorem C1_near_start_latched (evs : list Event) (s : WallFollower) :
  near_start s = true ->
  let r := spin pow getYaw evs s in
  near_start (node r) = true /\
  Forall is_stop (commands (sent r)) /\
  (initial_scan (node r) = true ->
   pulse_log (sent (update_callback pow (node r))) = [Observed]).
Proof.
  intros Hns r. subst r.
  destruct (spin_latched pow getYaw evs s Hns) as [Hns' Hstop].
  split; [done|]. split; [done|].
  intros Hscan. rewrite update_callback_runs by done.
  destruct (update_velocity_decides pow (ticked (node (spin pow getYaw evs s))))
    as (fmt & Hfmt & ->).
  cbn. rewrite Hfmt.
  unfold ticked. destruct (new_scan_data _); cbn; by rewrite Hns'.
Qed.

(** C2 (as the code has it): a scan of fewer than 360 samples makes
    [scan_callback] throw [std::out_of_range] from the bounds-checked access
    of its first loop, and the node ends there: no later event is served.
    Every entry of [scan_data_] and the staleness counter keep their values,
    and nothing is sent; but [initial_scan] and [new_scan_data] were set
    before the first sample was read. *)
Theorem C2_short_scan_throws (msg : LaserScan) (s : WallFollower) (later : list Event) :
  (length (ranges msg) < 360)%nat ->
  let r := scan_callback msg s in
  (exists i, ended r = Thrown (out_of_range i (length (ranges msg)))) /\
  scan_data_ (node r) = scan_data_ s /\
  since_new_scan (node r) = since_new_scan s /\
  sent r = [] /\
  initial_scan (node r) = true /\
  new_scan_data (node r) = true /\
  spin pow getYaw (Scan msg :: later) s = r.
Proof.
  intros Hlen r. subst r.
  destruct (scan_callback_short msg Hlen) as [i Hrun].
  unfold spin; cbn [for_each dispatch]. unfold bind. rewrite Hrun. cbn.
  split; [by exists i|]. unfold arrived.
  destruct s as [rp sx sy ns sd nsd [] sns fst sm]; cbn; done.
Qed.

(** C3 (as the code has it): with all 12 clearances 1.0 and no near-start
    signal, rule 2 applies (left-front 1.0 > 0.9): the tick that evaluates
    with staleness counter 0 emits (0.2, 1.5), and the one with counter 1
    emits (0.2 * 0.8, 1.5 * 0.8).  The commands (0.3, 0.0) and (0.24, 0.0)
    are those of the default rule, as with left-front 0.6 and the other
    clearances 1.0. *)
Theorem C3_all_clear (s : WallFollower) :
  pow BASE_FACTOR 0 = 1.0 ->
  pow BASE_FACTOR 1 = BASE_FACTOR ->
  initial_scan s = true ->
  near_start s = false ->
  let emitted := commands (sent (update_callback pow s)) in
  let counter := since_new_scan (node (update_callback pow s)) in
  (scan_data_ s = replicate 12 1.0 ->
     (counter = 0%Z -> emitted = [mkTwist 0.2 1.5]) /\
     (counter = 1%Z -> emitted = [mkTwist (0.2 * 0.8) (1.5 * 0.8)])) /\
  (scan_data_ s = <[LEFT_FRONT := 0.6]> (replicate 12 1.0) ->
     (counter = 0%Z -> emitted = [mkTwist 0.3 0.0]) /\
     (counter = 1%Z -> emitted = [mkTwist 0.24 0.0])).
Proof.
  intros Hpow0 Hpow1 Hscan Hns emitted counter. subst emitted counter.
  rewrite update_callback_runs by done.
  destruct (update_velocity_decides pow (ticked s)) as (fmt & _ & ->).
  cbn [node sent].
  assert (Hc : scan_data_ (ticked s) = scan_data_ s)
    by (unfold ticked; destruct (new_scan_data s); reflexivity).
  assert (Hn : near_start (ticked s) = near_start s)
    by (unfold ticked; destruct (new_scan_data s); reflexivity).
  rewrite Hc, Hn, Hns.
  split; intros ->; split; intros ->; rewrite ?Hpow0, ?Hpow1; reflexivity.
Qed.

(** C4: for every 12-entry clearance array and signal, the unscaled
    decision of [update_velocity] is the first matching rule of the ladder,
    read top to bottom: signal, (0, 0); else left-front > 0.9, (0.2, 1.5);
    else front < 0.7, (0.0, -1.5); else front-left < 0.6, (0.3, -1.5); else
    front-right < 0.6, (0.3, 1.5); else left-front > 0.6, (0.3, 1.5); else
    (0.3, 0.0).  With left-front 1.0 and front 0.5, which satisfy rules 2
    and 3, it is rule 2's (0.2, 1.5). *)
Theorem C4_rule_ladder (s : WallFollower) :
  length (scan_data_ s) = 12%nat ->
  let c := scan_data_ s in
  let factor := pow BASE_FACTOR (since_new_scan s) in
  let v := first_match rule_ladder c (near_start s) in
  (exists fmt,
     update_velocity pow s
     = (send (Info fmt []) ;; update_cmd_vel v.1 v.2 factor) s) /\
  commands (sent (update_velocity pow s)) = [mkTwist (v.1 * factor) (v.2 * factor)] /\
  v = (if near_start s then (0.0, 0.0)
       else if c !!! LEFT_FRONT >? 0.9 then (0.2, 1.5)
       else if c !!! FRONT <? 0.7 then (0.0, -1.5)
       else if c !!! FRONT_LEFT <? 0.6 then (0.3, -1.5)
       else if c !!! FRONT_RIGHT <? 0.6 then (0.3, 1.5)
       else if c !!! LEFT_FRONT >? 0.6 then (0.3, 1.5)
       else (0.3, 0.0)) /\
  (near_start s = false -> c !!! LEFT_FRONT = 1.0 -> c !!! FRONT = 0.5 ->
   v = (0.2, 1.5)).
Proof.
  intros _ c factor v. subst c factor v.
  destruct (update_velocity_decides pow s) as (fmt & _ & Hrun).
  split; [exists fmt; by rewrite Hrun|].
  split; [by rewrite Hrun|].
  split; [reflexivity|].
  intros Hns Hlf Hf. cbn. by rewrite Hns, Hlf.
Qed.

(** C5 (as the code has it): on a tick after the first scan the staleness
    counter becomes 0 if a fresh scan arrived since the previous tick, and
    its previous value plus 1 otherwise, as long as that value is below
    INT_MAX; the command of the tick is the decision scaled by
    [pow(0.8, counter)], which is 1.0 at counter 0 and within 1e-15 of 0.512
    at counter 3. *)
Theorem C5_staleness (s : WallFollower) :
  initial_scan s = true ->
  let r := update_callback pow s in
  let counter := since_new_scan (node r) in
  let factor := pow BASE_FACTOR counter in
  let v := DecisionPolicy (scan_data_ s) (near_start s) in
  (new_scan_data s = true -> counter = 0%Z) /\
  (new_scan_data s = false -> (INT_MIN <= since_new_scan s < INT_MAX)%Z ->
   counter = (since_new_scan s + 1)%Z) /\
  new_scan_data (node r) = false /\
  commands (sent r) = [mkTwist (v.1 * factor) (v.2 * factor)] /\
  (pow BASE_FACTOR 0 = 1.0 -> counter = 0%Z -> factor = 1.0) /\
  (faithful_at pow BASE_FACTOR 3 -> counter = 3%Z ->
   close_to factor (512 # 1000) (1 # 1000000000000000)).
Proof.
  intros Hscan r counter factor v. subst r counter factor v.
  rewrite update_callback_runs by done.
  destruct (update_velocity_decides pow (ticked s)) as (fmt & _ & ->).
  cbn [node sent ended commands omap].
  unfold ticked. destruct (new_scan_data s) eqn:Hfresh; cbn.
  - repeat split; done.
  - repeat split; try done.
    + intros _ Hrange. apply wrap_int_small. unfold INT_MIN, INT_MAX in *. lia.
    + by intros ? ->.
    + intros ? ->. by apply faithful_cube_close.
Qed.

(** C6: on the poses (0,0), (1,1), (0.05,0.05) the tracker raises the
    near-start signal once, at the third pose; on poses that never leave
    the range 0.2 of the first along either axis it never raises it. *)
Theorem C6_start_proximity (x0 y0 : float) (q1 q2 q3 : Quaternion) :
  let start := Odom (mkOdometry 0.0 0.0 q1) in
  let away := Odom (mkOdometry 1.0 1.0 q2) in
  let back := Odom (mkOdometry 0.05 0.05 q3) in
  let run evs := spin pow getYaw evs (constructed x0 y0) in
  pulse_log (sent (run [start; away])) = [] /\
  near_start (node (run [start; away])) = false /\
  pulse_log (sent (run [start; away; back])) = [Raised] /\
  near_start (node (run [start; away; back])) = true /\
  pulse_log (sent (run [])) = [] /\
  (forall p0 rest,
     Forall (within_start_range p0) rest ->
     pulse_log (sent (run (Odom <$> p0 :: rest))) = [] /\
     near_start (node (run (Odom <$> p0 :: rest))) = false).
Proof.
  cbn zeta. do 5 (split; [reflexivity|]).
  intros p0 rest Hnear.
  rewrite fmap_cons, spin_cons. cbn [dispatch].
  destruct (odom_callback_first getYaw p0 (constructed x0 y0) eq_refl)
    as (Hend & Hnode & Hlog).
  rewrite Hend, Hnode. cbn [after ended node sent]. rewrite pulse_log_app, Hlog.
  match goal with |- context [spin pow getYaw _ ?s1] =>
    destruct (spin_waiting pow getYaw rest s1) as (_ & Hlog' & Hns);
      [reflexivity|reflexivity|exact Hnear|] end.
  by rewrite Hlog', Hns.
Qed.

(** C7: for a scan of at least 360 samples the forward clearance is the
    minimum of [range_max] and the samples at the indices 350..359 and 0..9;
    a sample at index 0 or at index 359 that is below or equal to all of
    these is the forward clearance. *)
Theorem C7_forward_clearance (msg : LaserScan) (s : WallFollower) :
  (360 <= length (ranges msg))%nat ->
  length (scan_data_ s) = 12%nat ->
  let r := scan_callback msg s in
  let forward := scan_data_ (node r) !!! FRONT in
  let aggregated := range_max msg :: front_window (ranges msg) in
  ended r = Normal tt /\
  is_minimum_of forward aggregated /\
  (forall j, j = 0%nat \/ j = 359%nat ->
     Forall (fun x => (ranges msg !!! j <=? x) = true) aggregated ->
     (forward =? ranges msg !!! j) = true).
Proof.
  intros Hlen Hsd r forward aggregated. subst r forward aggregated.
  rewrite scan_callback_full by done. cbn [ended node scan_data_ set_scan_data_].
  rewrite store_from_full by (by rewrite Hsd).
  change (sector_clearances msg !!! FRONT)
    with (closest_in (range_max msg) (front_window (ranges msg))).
  split; [done|]. split; [apply closest_in_minimum|].
  intros j Hj Hleast.
  set (m := closest_in (range_max msg) (front_window (ranges msg))).
  apply double_leb_not_ltb.
  - eapply Forall_forall in Hleast; [exact Hleast|]. apply closest_in_elem.
  - pose proof (closest_in_none_below (front_window (ranges msg)) (range_max msg)) as Hnone.
    eapply Forall_forall in Hnone; [exact Hnone|].
    right. unfold front_window. apply list_elem_of_fmap. exists j. split; [done|].
    destruct Hj as [-> | ->]; apply elem_of_app; [right|left]; apply elem_of_seq; lia.
Qed.

(** C8 (as the code has it): for a scan of at least 360 samples whose range
    values are non-negative and whose [range_max] is non-negative, each of
    the 12 cached clearances lies in [0, range_max]; a scan all of whose
    samples equal [range_max] yields [range_max] in every entry. *)
Theorem C8_clearances_bounded (msg : LaserScan) (s : WallFollower) :
  (360 <= length (ranges msg))%nat ->
  length (scan_data_ s) = 12%nat ->
  let r := scan_callback msg s in
  ended r = Normal tt /\
  length (scan_data_ (node r)) = 12%nat /\
  (Forall (fun x => (0 <=? x) = true) (ranges msg) ->
   (0 <=? range_max msg) = true ->
   Forall (fun c => (0 <=? c) = true /\ (c <=? range_max msg) = true)
          (scan_data_ (node r))) /\
  (Forall (fun x => x = range_max msg) (ranges msg) ->
   scan_data_ (node r) = replicate 12 (range_max msg)).
Proof.
  intros Hlen Hsd r. subst r.
  rewrite scan_callback_full by done. cbn [ended node scan_data_ set_scan_data_].
  rewrite store_from_full by (by rewrite Hsd).
  split; [done|]. split; [done|]. split.
  - intros Hsamples Hmax. apply sector_clearances_each; [done|].
    intros w Hw. split.
    + pose proof (closest_in_elem w (range_max msg)) as [->|Hin]%elem_of_cons; [done|].
      eapply Forall_forall in Hw; [|exact Hin].
      eapply Forall_forall in Hsamples; [exact Hsamples|exact Hw].
    + apply closest_in_bounded. by apply double_leb_refl with 0.
  - intros Hflat.
    assert (Heach : Forall (fun c => c = range_max msg) (sector_clearances msg)).
    { apply sector_clearances_each; [done|]. intros w Hw. apply closest_in_flat.
      eapply Forall_impl; [exact Hw|]. intros x Hx. cbn in Hx.
      eapply Forall_forall in Hflat; [exact Hflat|exact Hx]. }
    apply list_eq_Forall2. rewrite <- (length_sector_clearances msg).
    apply Forall2_replicate_r; [done|].
    eapply Forall_impl; [exact Heach|]. by intros c ->.
Qed.

(** C9: a tick publishes at most one command, and none before the first
    scan: in an execution served to its end, a tick that follows no scan
    sends nothing at all, a tick that follows one publishes exactly one
    command, and the commands published so far are as many as the ticks
    that followed a scan. *)
Theorem C9_one_command_per_tick (evs : list Event) (x0 y0 : float) :
  let r := spin pow getYaw evs (constructed x0 y0) in
  ended r = Normal tt ->
  let tick := update_callback pow (node r) in
  ended tick = Normal tt /\
  (length (commands (sent tick)) <= 1)%nat /\
  (scan_received evs = false -> sent tick = []) /\
  (scan_received evs = true -> length (commands (sent tick)) = 1%nat) /\
  length (commands (sent r)) = ticks_after_scan false evs.
Proof.
  intros r Hend tick. subst r tick.
  destruct (spin_served pow getYaw evs (constructed x0 y0) Hend) as [Hscan Hcount].
  cbn [constructed initial_scan no_scan_yet orb] in Hscan, Hcount.
  destruct (scan_received evs).
  - rewrite update_callback_runs by done.
    destruct (update_velocity_decides pow
                (ticked (node (spin pow getYaw evs (constructed x0 y0)))))
      as (fmt & _ & ->).
    cbn. repeat split; try done; lia.
  - rewrite update_callback_idle by done. cbn. repeat split; try done; lia.
Qed.

(** C10: two executions with the same scans, the same ticks and pose
    updates at the same positions, whatever their orientations, publish the
    same commands (and end alike, in nodes that differ in [robot_pose_]
    only). *)
Theorem C10_orientation_ignored (evs1 evs2 : list Event) (x0 y0 : float) :
  Forall2 same_but_orientation evs1 evs2 ->
  let r1 := spin pow getYaw evs1 (constructed x0 y0) in
  let r2 := spin pow getYaw evs2 (constructed x0 y0) in
  commands (sent r1) = commands (sent r2) /\
  ended r1 = ended r2 /\
  same_but_pose (node r1) (node r2).
Proof.
  intros Hevs r1 r2. subst r1 r2.
  destruct (spin_orientation pow getYaw evs1 evs2
              (constructed x0 y0) (constructed x0 y0) Hevs eq_refl)
    as (Hend & Hcmd & Hsim).
  done.
Qed.

End Claims.

(* ================================================================= *)
(** * The claims at concrete inputs *)

(** C1 at the node one lap has left behind. *)
Lemma C1_near_start_latched_witness :
  let s := node (spin pow_ref yaw_ref lap (constructed 0.0 0.0)) in
  let r := spin pow_ref yaw_ref [Scan (flat_scan 3.5 1.0); Timer; Timer] s in
  near_start (node r) = true /\
  Forall is_stop (commands (sent r)) /\
  (initial_scan (node r) = true ->
   pulse_log (sent (update_callback pow_ref (node r))) = [Observed]).
Proof.
  apply (C1_near_start_latched pow_ref yaw_ref
           [Scan (flat_scan 3.5 1.0); Timer; Timer]
           (node (spin pow_ref yaw_ref lap (constructed 0.0 0.0)))).
  vm_compute. reflexivity.
Defined.

(** C1 fails as stated: after one lap (one raising of the signal) two ticks
    in a row decide with the signal set, and both stop the robot. *)
Lemma C1_signal_seen_twice :
  let evs := lap ++ [Scan (flat_scan 3.5 1.0); Timer; Timer] in
  let r := spin pow_ref yaw_ref evs (constructed 0.0 0.0) in
  ended r = Normal tt /\
  pulse_log (sent r) = [Raised; Observed; Observed] /\
  one_shot (pulse_log (sent r)) = false /\
  commands (sent r) = [mkTwist 0.0 0.0; mkTwist 0.0 0.0].
Proof. vm_compute. done. Qed.

(** C2 at a sweep of 359 samples. *)
Lemma C2_short_scan_throws_witness :
  let msg := mkLaserScan 3.5 (replicate 359 1.0) in
  let s := running (replicate 12 1.0) false false 3 in
  let r := scan_callback msg s in
  (exists i, ended r = Thrown (out_of_range i (length (ranges msg)))) /\
  scan_data_ (node r) = scan_data_ s /\
  since_new_scan (node r) = since_new_scan s /\
  sent r = [] /\
  initial_scan (node r) = true /\
  new_scan_data (node r) = true /\
  spin pow_ref yaw_ref [Scan msg; Timer] s = r.
Proof.
  apply (C2_short_scan_throws pow_ref yaw_ref
           (mkLaserScan 3.5 (replicate 359 1.0))
           (running (replicate 12 1.0) false false 3) [Timer]).
  cbn [ranges]. rewrite length_replicate. lia.
Defined.

(** C2 fails as stated: a scan of 359 samples is refused with the exception,
    yet the fresh-scan flag is set, and a tick of the node as the scan left
    it takes the staleness counter from 3 to 0, not to 4. *)
Lemma C2_flag_set_by_short_scan :
  let msg := mkLaserScan 3.5 (replicate 359 1.0) in
  let s := running (replicate 12 1.0) false false 3 in
  let r := scan_callback msg s in
  ended r = Thrown (out_of_range 359 359) /\
  new_scan_data s = false /\
  new_scan_data (node r) = true /\
  since_new_scan (node (update_callback pow_ref (node r))) = 0%Z.
Proof. vm_compute. done. Qed.

(** C3 at a pow that is exact at the exponents 0 and 1. *)
Lemma C3_all_clear_witness :
  commands (sent (update_callback pow_ref (running (replicate 12 1.0) false true 0)))
  = [mkTwist 0.2 1.5].
Proof.
  exact (proj1 (proj1 (C3_all_clear pow_ref
                         (running (replicate 12 1.0) false true 0)
                         eq_refl eq_refl eq_refl eq_refl) eq_refl) eq_refl).
Defined.

(** C3 fails as stated: with all clearances 1.0 the tick at counter 0 emits
    (0.2, 1.5), not (0.3, 0.0), and the tick at counter 1 emits
    (0.2 * 0.8, 1.5 * 0.8), not (0.24, 0.0). *)
Lemma C3_all_clear_is_rule_2 :
  let ones := replicate 12 1.0 in
  let fresh := update_callback pow_ref (running ones false true 0) in
  let stale := update_callback pow_ref (running ones false false 0) in
  since_new_scan (node fresh) = 0%Z /\
  commands (sent fresh) = [mkTwist 0.2 1.5] /\
  mkTwist 0.2 1.5 <> mkTwist 0.3 0.0 /\
  since_new_scan (node stale) = 1%Z /\
  commands (sent stale) = [mkTwist (0.2 * 0.8) (1.5 * 0.8)] /\
  mkTwist (0.2 * 0.8) (1.5 * 0.8) <> mkTwist 0.24 0.0.
Proof.
  cbn zeta. repeat split; try (vm_compute; reflexivity);
    apply twist_differs; vm_compute; reflexivity.
Qed.

(** C4 at left-front 1.0 and front 0.5. *)
Lemma C4_rule_ladder_witness :
  let s := running (<[FRONT := 0.5]> (replicate 12 1.0)) false true 0 in
  commands (sent (update_velocity pow_ref s)) = [mkTwist 0.2 1.5].
Proof.
  pose proof (C4_rule_ladder pow_ref
                (running (<[FRONT := 0.5]> (replicate 12 1.0)) false true 0)
                eq_refl) as (_ & Hcmd & _ & Hv).
  cbn zeta. rewrite Hcmd, (Hv eq_refl eq_refl eq_refl). reflexivity.
Defined.

(** C5 at the third tick in a row without a scan. *)
Lemma C5_staleness_witness :
  let r := update_callback pow_ref (running (replicate 12 1.0) false false 2) in
  since_new_scan (node r) = 3%Z /\
  close_to (pow_ref BASE_FACTOR (since_new_scan (node r)))
           (512 # 1000) (1 # 1000000000000000).
Proof.
  assert (Hfaithful : faithful_at pow_ref BASE_FACTOR 3).
  { vm_compute. discriminate. }
  pose proof (C5_staleness pow_ref
                (running (replicate 12 1.0) false false 2) eq_refl)
    as (_ & Hinc & _ & _ & _ & Hclose).
  cbn zeta. split; [reflexivity|]. apply Hclose; [exact Hfaithful|reflexivity].
Defined.

(** C5 fails as stated: after a scan and 2^31 ticks with no further scan
    the counter is INT_MAX, and the next tick does not take it to its value
    plus 1 (which no [int] holds) but to INT_MIN. *)
Lemma C5_counter_wraps :
  let evs :=
    Scan (flat_scan 3.5 1.0) :: Timer :: replicate (Z.to_nat INT_MAX) Timer in
  let r := spin pow_ref yaw_ref evs (constructed 0.0 0.0) in
  let tick := update_callback pow_ref (node r) in
  ended r = Normal tt /\
  initial_scan (node r) = true /\
  new_scan_data (node r) = false /\
  since_new_scan (node r) = 2147483647%Z /\
  since_new_scan (node tick) = (-2147483648)%Z /\
  since_new_scan (node tick) <> (since_new_scan (node r) + 1)%Z.
Proof.
  lazy zeta.
  assert (Hk : Z.of_nat (Z.to_nat INT_MAX) = INT_MAX)
    by (apply Z2Nat.id; discriminate).
  generalize dependent (Z.to_nat INT_MAX). intros k Hk.
  rewrite spin_cons.
  change (dispatch pow_ref yaw_ref (Scan (flat_scan 3.5 1.0)) (constructed 0.0 0.0))
    with (scan_callback (flat_scan 3.5 1.0) (constructed 0.0 0.0)).
  rewrite scan_callback_full by (vm_compute; lia).
  cbn [ended node sent after].
  rewrite spin_cons. cbn [dispatch].
  rewrite update_callback_runs by reflexivity.
  match goal with |- context [update_velocity pow_ref ?s] =>
    destruct (update_velocity_decides pow_ref s) as (fmt & _ & ->) end.
  cbn [ended node sent after].
  match goal with |- context [spin pow_ref yaw_ref (replicate k Timer) ?s] =>
    set (s0 := s) end.
  assert (Hs0 : since_new_scan s0 = 0%Z) by reflexivity.
  destruct (spin_stale_ticks pow_ref yaw_ref k s0) as (H1 & H2 & H3 & H4);
    [reflexivity|reflexivity|rewrite Hs0; discriminate|rewrite Hs0, Hk; discriminate|].
  rewrite Hs0, Hk, Z.add_0_l in H4.
  set (r := spin pow_ref yaw_ref (replicate k Timer) s0) in *.
  rewrite update_callback_runs by done.
  destruct (update_velocity_decides pow_ref (ticked r.(node))) as (fmt' & _ & ->).
  cbn [node]. unfold ticked. rewrite H3. cbn [since_new_scan set_since_new_scan].
  rewrite ?H1, ?H2, ?H3, ?H4. repeat split; vm_compute; congruence.
Qed.

(** C6 at a lap, and at three poses that stay near the first. *)
Lemma C6_start_proximity_witness :
  let run evs := spin pow_ref yaw_ref evs (constructed 0.0 0.0) in
  pulse_log (sent (run lap)) = [Raised] /\
  pulse_log (sent (run (Odom <$> [pose 0.0 0.0; pose 0.1 0.2; pose (-0.2) 0.15]))) = [].
Proof.
  pose proof (C6_start_proximity pow_ref yaw_ref 0.0 0.0 upright upright upright)
    as (_ & _ & Hlap & _ & _ & Hnear).
  split; [exact Hlap|].
  apply (Hnear (pose 0.0 0.0) [pose 0.1 0.2; pose (-0.2) 0.15]).
  repeat constructor; vm_compute; reflexivity.
Defined.

(** C7 at a sweep whose nearest sample is the one at index 359. *)
Lemma C7_forward_clearance_witness :
  let msg := dented_scan 359 in
  let s := constructed 0.0 0.0 in
  let r := scan_callback msg s in
  let forward := scan_data_ (node r) !!! FRONT in
  let aggregated := range_max msg :: front_window (ranges msg) in
  ended r = Normal tt /\
  is_minimum_of forward aggregated /\
  (forall j, j = 0%nat \/ j = 359%nat ->
     Forall (fun x => (ranges msg !!! j <=? x) = true) aggregated ->
     (forward =? ranges msg !!! j) = true).
Proof.
  apply (C7_forward_clearance (dented_scan 359) (constructed 0.0 0.0)).
  - cbn [dented_scan ranges]. rewrite length_insert, length_replicate. lia.
  - reflexivity.
Defined.

(** C8 at a sweep with one near sample and a range_max of 3.5. *)
Lemma C8_clearances_bounded_witness :
  let msg := dented_scan 100 in
  let r := scan_callback msg (constructed 0.0 0.0) in
  Forall (fun c => (0 <=? c) = true /\ (c <=? range_max msg) = true)
         (scan_data_ (node r)).
Proof.
  assert (Hlen : (360 <= length (ranges (dented_scan 100)))%nat).
  { cbn [dented_scan ranges]. rewrite length_insert, length_replicate. lia. }
  pose proof (C8_clearances_bounded (dented_scan 100) (constructed 0.0 0.0)
                Hlen eq_refl) as (_ & _ & Hin & _).
  apply Hin; [|reflexivity].
  cbn [dented_scan ranges].
  apply Forall_insert; [|reflexivity]. by apply Forall_replicate.
Defined.

(** C8 fails as stated: non-negative samples with a negative [range_max]
    leave [range_max] itself, which is below 0, in every entry. *)
Lemma C8_negative_range_max :
  let msg := flat_scan (-1.0) 2.0 in
  let r := scan_callback msg (constructed 0.0 0.0) in
  length (ranges msg) = 360%nat /\
  Forall (fun x => (0 <=? x) = true) (ranges msg) /\
  ended r = Normal tt /\
  scan_data_ (node r) = replicate 12 (-1.0) /\
  (0 <=? -1.0) = false.
Proof.
  cbn zeta. split; [reflexivity|]. split; [by apply Forall_replicate|].
  vm_compute. done.
Qed.

(** C9 at a tick, a pose and a scan, before one more tick. *)
Lemma C9_one_command_per_tick_witness :
  let evs := [Timer; Odom (pose 0.0 0.0); Scan (flat_scan 3.5 1.0); Timer] in
  let r := spin pow_ref yaw_ref evs (constructed 0.0 0.0) in
  let tick := update_callback pow_ref (node r) in
  ended tick = Normal tt /\
  (length (commands (sent tick)) <= 1)%nat /\
  (scan_received evs = false -> sent tick = []) /\
  (scan_received evs = true -> length (commands (sent tick)) = 1%nat) /\
  length (commands (sent r)) = ticks_after_scan false evs.
Proof.
  apply (C9_one_command_per_tick pow_ref yaw_ref
           [Timer; Odom (pose 0.0 0.0); Scan (flat_scan 3.5 1.0); Timer] 0.0 0.0).
  vm_compute. reflexivity.
Defined.

(** C10 at two executions, one upright and one turned around. *)
Lemma C10_orientation_ignored_witness :
  let scan := Scan (flat_scan 3.5 0.5) in
  let evs1 := [Odom (mkOdometry 0.0 0.0 upright); scan; Timer;
               Odom (mkOdometry 1.0 1.0 upright); Timer] in
  let evs2 := [Odom (mkOdometry 0.0 0.0 turned); scan; Timer;
               Odom (mkOdometry 1.0 1.0 turned); Timer] in
  let r1 := spin pow_ref yaw_ref evs1 (constructed 0.0 0.0) in
  let r2 := spin pow_ref yaw_ref evs2 (constructed 0.0 0.0) in
  commands (sent r1) = commands (sent r2) /\
  ended r1 = ended r2 /\
  same_but_pose (node r1) (node r2).
Proof.
  apply (C10_orientation_ignored pow_ref yaw_ref
           [Odom (mkOdometry 0.0 0.0 upright); Scan (flat_scan 3.5 0.5); Timer;
            Odom (mkOdometry 1.0 1.0 upright); Timer]
           [Odom (mkOdometry 0.0 0.0 turned); Scan (flat_scan 3.5 0.5); Timer;
            Odom (mkOdometry 1.0 1.0 turned); Timer] 0.0 0.0).
  repeat constructor.
Defined.


(* ================================================================= *)
(** * Further properties *)

(** ** More on the order of doubles *)

Lemma double_eqb_leb (x : float) : (x =? x) = true -> (x <=? x) = true.
Proof. intros H. double_cases. Qed.

Lemma double_leb_is_number (a x : float) : (x <=? a) = true -> (x =? x) = true.
Proof. intros H. double_cases. Qed.

Lemma double_nan_ltb (c y : float) : (c =? c) = false -> (c <? y) = false.
Proof. intros H. double_cases. Qed.

(** ** The tracker, pose by pose *)

Section Tracker.

Variable pow : float -> Z -> float.
Variable getYaw : Quaternion -> float.

(** Waiting, a pose beyond the range makes the tracker take the robot for
    gone. *)
Lemma odom_callback_departs (msg : Odometry) (s : WallFollower) :
  first s = false ->
  start_moving s = true ->
  beyond_range (start_x s) (start_y s) msg = true ->
  let r := odom_callback getYaw msg s in
  ended r = Normal tt /\
  node r = set_start_moving false (set_robot_pose_ (getYaw (orientation msg)) s) /\
  pulse_log (sent r) = [].
Proof.
  destruct s as [rp sx sy ns sd nsd isc sns fst sm]. cbn.
  unfold beyond_range. cbn. intros -> -> Hfar.
  unfold odom_callback, bind, get, modify, send, ret; cbn.
  rewrite Hfar. cbn. done.
Qed.

(** Gone, a pose that is not inside the range changes nothing but
    [robot_pose_]. *)
Lemma odom_callback_away (msg : Odometry) (s : WallFollower) :
  first s = false ->
  start_moving s = false ->
  inside_range (start_x s) (start_y s) msg = false ->
  let r := odom_callback getYaw msg s in
  ended r = Normal tt /\
  node r = set_robot_pose_ (getYaw (orientation msg)) s /\
  pulse_log (sent r) = [].
Proof.
  destruct s as [rp sx sy ns sd nsd isc sns fst sm]. cbn.
  unfold inside_range. cbn. intros -> -> Hout.
  unfold odom_callback, bind, get, modify, send, ret; cbn.
  rewrite Hout. cbn. done.
Qed.

(** Gone, a pose inside the range raises the signal and asks for a new
    start; the recorded start itself is not touched. *)
Lemma odom_callback_returns (msg : Odometry) (s : WallFollower) :
  first s = false ->
  start_moving s = false ->
  inside_range (start_x s) (start_y s) msg = true ->
  let r := odom_callback getYaw msg s in
  ended r = Normal tt /\
  node r = set_start_moving true (set_first true (set_near_start true
             (set_robot_pose_ (getYaw (orientation msg)) s))) /\
  pulse_log (sent r) = [Raised].
Proof.
  destruct s as [rp sx sy ns sd nsd isc sns fst sm]. cbn.
  unfold inside_range. cbn. intros -> -> Hin.
  unfold odom_callback, bind, get, modify, send, ret; cbn.
  rewrite Hin. cbn. done.
Qed.

Lemma run_eta_after {A} (out : list Output) (r : Run A) :
  after out r = mkRun (ended r) (node r) (out ++ sent r).
Proof. reflexivity. Qed.

Lemma spin_app (evs1 evs2 : list Event) (s : WallFollower) :
  spin pow getYaw (evs1 ++ evs2) s =
  match ended (spin pow getYaw evs1 s) with
  | Normal _ =>
      after (sent (spin pow getYaw evs1 s))
            (spin pow getYaw evs2 (node (spin pow getYaw evs1 s)))
  | Thrown e => spin pow getYaw evs1 s
  end.
Proof.
  revert s. induction evs1 as [|ev evs1 IH]; intros s.
  - change ([] ++ evs2) with evs2.
    change (spin pow getYaw [] s) with (mkRun (Normal tt) s []).
    unfold after. cbn [ended node sent app]. by destruct (spin pow getYaw evs2 s).
  - rewrite <- app_comm_cons, !spin_cons.
    destruct (ended (dispatch pow getYaw ev s)) as [[]|e] eqn:Hev;
      cbn [after ended node sent]; [|done].
    rewrite IH.
    destruct (ended (spin pow getYaw evs1 _)) as [[]|e];
      cbn [after ended node sent]; [|done].
    unfold after; cbn [ended node sent]. by rewrite app_assoc.
Qed.

(** Poses that are not inside the range leave a tracker that takes the
    robot for gone as it is. *)
Lemma spin_away (poses : list Odometry) (s : WallFollower) :
  first s = false ->
  start_moving s = false ->
  Forall (fun p => inside_range (start_x s) (start_y s) p = false) poses ->
  let r := spin pow getYaw (Odom <$> poses) s in
  ended r = Normal tt /\
  pulse_log (sent r) = [] /\
  set_robot_pose_ 0.0 (node r) = set_robot_pose_ 0.0 s.
Proof.
  intros Hfirst Hmoving Hout. revert s Hfirst Hmoving Hout.
  induction poses as [|p poses IH]; intros s Hfirst Hmoving Hout; [done|].
  apply Forall_cons in Hout as [Hp Hout].
  rewrite fmap_cons, spin_cons. cbn [dispatch].
  destruct (odom_callback_away p s Hfirst Hmoving Hp) as (Hend & Hnode & Hlog).
  rewrite Hend, Hnode. cbn [after ended node sent].
  rewrite pulse_log_app, Hlog.
  destruct (IH (set_robot_pose_ (getYaw (orientation p)) s)) as (IH1 & IH2 & IH3);
    [done..|].
  by rewrite IH1, IH2, IH3.
Qed.

(** The same for a tracker that waits, with the node it ends in. *)
Lemma spin_waiting_node (poses : list Odometry) (s : WallFollower) :
  first s = false ->
  start_moving s = true ->
  Forall (fun p => beyond_range (start_x s) (start_y s) p = false) poses ->
  let r := spin pow getYaw (Odom <$> poses) s in
  ended r = Normal tt /\
  pulse_log (sent r) = [] /\
  set_robot_pose_ 0.0 (node r) = set_robot_pose_ 0.0 s.
Proof.
  intros Hfirst Hmoving Hnear. revert s Hfirst Hmoving Hnear.
  induction poses as [|p poses IH]; intros s Hfirst Hmoving Hnear; [done|].
  apply Forall_cons in Hnear as [Hp Hnear].
  apply orb_false_iff in Hp as [Hx Hy].
  rewrite fmap_cons, spin_cons. cbn [dispatch].
  destruct (odom_callback_waiting getYaw p s Hfirst Hmoving Hx Hy)
    as (Hend & Hnode & Hlog).
  rewrite Hend, Hnode. cbn [after ended node sent].
  rewrite pulse_log_app, Hlog.
  destruct (IH (set_robot_pose_ (getYaw (orientation p)) s)) as (IH1 & IH2 & IH3);
    [done..|].
  by rewrite IH1, IH2, IH3.
Qed.

End Tracker.

(** ** The statics of the tracker over an execution *)

Section TrackerInvariant.

Variable pow : float -> Z -> float.
Variable getYaw : Quaternion -> float.

Lemma same_pose_tracker (s1 s2 : WallFollower) :
  set_robot_pose_ 0.0 s1 = set_robot_pose_ 0.0 s2 ->
  start_x s1 = start_x s2 /\ start_y s1 = start_y s2 /\
  near_start s1 = near_start s2 /\ first s1 = first s2 /\
  start_moving s1 = start_moving s2.
Proof.
  destruct s1, s2. cbn. by intros [= -> -> -> -> -> -> -> -> ->].
Qed.

Lemma odom_callback_tracker_ok (msg : Odometry) (s : WallFollower) :
  tracker_ok s -> tracker_ok (node (odom_callback getYaw msg s)).
Proof.
  destruct s as [rp sx sy ns sd nsd isc sns fst sm]. unfold tracker_ok. cbn.
  intros Hok.
  unfold odom_callback, bind, get, modify, send, ret; cbn.
  repeat match goal with
         | |- context [if ?b then _ else _] => destruct b eqn:?; cbn
         end; done.
Qed.

Lemma dispatch_tracker_ok (ev : Event) (s : WallFollower) :
  tracker_ok s -> tracker_ok (node (dispatch pow getYaw ev s)).
Proof.
  intros Hok. destruct ev as [msg|msg|]; cbn [dispatch].
  - destruct (Nat.lt_ge_cases (length (ranges msg)) 360) as [Hshort|Hfull].
    + destruct (scan_callback_short msg Hshort) as [i Hrun]. rewrite Hrun. cbn.
      revert Hok. unfold tracker_ok, arrived.
      destruct s as [? ? ? ? ? ? [] ? ? ?]; done.
    + rewrite scan_callback_full by done. cbn.
      revert Hok. unfold tracker_ok, arrived.
      destruct s as [? ? ? ? ? ? [] ? ? ?]; done.
  - by apply odom_callback_tracker_ok.
  - destruct (initial_scan s) eqn:Hscan.
    + rewrite update_callback_runs by done.
      destruct (update_velocity_decides pow (ticked s)) as (fmt & _ & ->). cbn.
      revert Hok. unfold tracker_ok, ticked. by destruct (new_scan_data s).
    + by rewrite update_callback_idle.
Qed.

Lemma spin_tracker_ok (evs : list Event) (s : WallFollower) :
  tracker_ok s -> tracker_ok (node (spin pow getYaw evs s)).
Proof.
  revert s. induction evs as [|ev evs IH]; intros s Hok; [done|].
  rewrite spin_cons. pose proof (dispatch_tracker_ok ev s Hok) as Hok'.
  destruct (ended (dispatch pow getYaw ev s)) as [[]|e]; [|done].
  cbn [after node]. by apply IH.
Qed.

(** One pose moves a well-kept tracker to its phase or to the next, and
    raises the signal on the step from [Departed] to [Recording] only. *)
Lemma odom_callback_phase (msg : Odometry) (s : WallFollower) :
  tracker_ok s ->
  let r := odom_callback getYaw msg s in
  (phase (node r) = phase s \/ phase (node r) = next_phase (phase s)) /\
  (pulse_log (sent r) = [Raised] <->
   phase s = Departed /\ phase (node r) = Recording) /\
  (pulse_log (sent r) = [] \/ pulse_log (sent r) = [Raised]).
Proof.
  destruct s as [rp sx sy ns sd nsd isc sns fst sm]. unfold tracker_ok, phase. cbn.
  intros Hok.
  unfold odom_callback, bind, get, modify, send, ret; cbn.
  destruct fst; cbn.
  - rewrite (Hok eq_refl). cbn. split; [by right|]. split; [|by left].
    split; [done|]. by intros [[=] _].
  - destruct sm; cbn.
    + destruct (_ || _); cbn; (split; [auto|]); (split; [|by left]);
        (split; [done|]); by intros [[=] _].
    + destruct (_ && _); cbn; (split; [auto|]).
      * split; [|by right]. done.
      * split; [|by left]. split; [done|]. by intros [_ [=]].
Qed.

End TrackerInvariant.

(** ** More on the scan callback *)

Lemma sector_clearances_front (msg : LaserScan) :
  sector_clearances msg !!! FRONT
  = closest_in (range_max msg) (front_window (ranges msg)).
Proof. reflexivity. Qed.

Lemma sector_clearances_sector (msg : LaserScan) (i : nat) :
  (1 <= i <= 11)%nat ->
  sector_clearances msg !!! i
  = closest_in (range_max msg) (sector_window i (ranges msg)).
Proof.
  intros Hi. assert (Hcases : i ∈ seq 1 11) by (apply elem_of_seq; lia).
  clear Hi. cbn in Hcases.
  repeat (apply elem_of_cons in Hcases as [->|Hcases]; [reflexivity|]).
  by apply elem_of_nil in Hcases.
Qed.

(** Every index a beam covers is a read index. *)
Lemma front_indices_read :
  Forall (fun k => read_index k = true) (seq 350 10 ++ seq 0 10).
Proof. apply Forall_forall. intros k Hk. revert k Hk. apply Forall_forall.
       repeat constructor. Qed.

Lemma sector_indices_read (i : nat) :
  (1 <= i <= 11)%nat ->
  Forall (fun k => read_index k = true) (seq (30 * i - 10) 20).
Proof.
  intros Hi. assert (Hcases : i ∈ seq 1 11) by (apply elem_of_seq; lia).
  clear Hi. cbn in Hcases.
  repeat (apply elem_of_cons in Hcases as [->|Hcases]; [repeat constructor|]).
  by apply elem_of_nil in Hcases.
Qed.

(** Two sweeps with the same samples at the read indices and the same
    [range_max] yield the same clearances. *)
Lemma sector_clearances_read (m1 m2 : LaserScan) :
  range_max m1 = range_max m2 ->
  (forall k, read_index k = true -> ranges m1 !!! k = ranges m2 !!! k) ->
  sector_clearances m1 = sector_clearances m2.
Proof.
  intros Hmax Hread. unfold sector_clearances, front_window, sector_window.
  rewrite Hmax. f_equal.
  - f_equal. apply Forall_fmap_ext_1.
    eapply Forall_impl; [exact front_indices_read|]. intros k Hk. by apply Hread.
  - apply Forall_fmap_ext_1, Forall_forall. intros i Hi%elem_of_seq.
    f_equal. apply Forall_fmap_ext_1.
    eapply Forall_impl; [apply sector_indices_read; lia|].
    intros k Hk. by apply Hread.
Qed.

(** The first loop over a sweep that is too short throws at the first index
    the sweep does not have. *)
Lemma closest_over_first_missing (v : list float) (lo n : nat) (c : float) :
  (0 < n)%nat -> (length v < lo + n)%nat ->
  closest_over v (Z.of_nat <$> seq lo n) c
  = inl (out_of_range (Z.of_nat (Nat.max lo (length v))) (length v)).
Proof.
  revert lo c. induction n as [|n IH]; intros lo c Hn Hlen; [lia|].
  cbn. destruct (Nat.lt_ge_cases lo (length v)) as [Hin|Hout].
  - rewrite at_in_range by done. rewrite IH by lia. do 3 f_equal. lia.
  - rewrite at_past_end by done. do 3 f_equal. lia.
Qed.

(** A scan that is too short, whole: what it throws and the node it
    leaves. *)
Lemma scan_callback_short_run (msg : LaserScan) (s : WallFollower) :
  (length (ranges msg) < 360)%nat ->
  scan_callback msg s
  = mkRun (Thrown (out_of_range (Z.of_nat (Nat.max 350 (length (ranges msg))))
                                (length (ranges msg))))
          (arrived s) [].
Proof.
  intros Hlen. unfold scan_callback. rewrite seqZ_350.
  unfold bind, get, lift, arrived; cbn -[closest_over seq Nat.max].
  destruct (initial_scan s); cbn -[closest_over seq Nat.max];
    rewrite closest_over_first_missing by lia; reflexivity.
Qed.

(** A scan that is long enough, on a node with its twelve clearances. *)
Lemma scan_callback_full_run (msg : LaserScan) (s : WallFollower) :
  (360 <= length (ranges msg))%nat ->
  length (scan_data_ s) = 12%nat ->
  scan_callback msg s
  = mkRun (Normal tt) (set_scan_data_ (sector_clearances msg) (arrived s))
          [Info "Closest distance in front: %f" [sector_clearances msg !!! FRONT]].
Proof.
  intros Hlen Hsd. rewrite scan_callback_full by done.
  by rewrite store_from_full by (by rewrite Hsd).
Qed.

(** The indices of the beams the decision reads are decisive. *)
Lemma decisive_indices :
  Forall (fun k => decisive_index k = true)
         ((seq 350 10 ++ seq 0 10) ++ seq 20 20 ++ seq 50 20 ++ seq 320 20).
Proof. repeat constructor. Qed.

Lemma sector_clearances_decisive (m1 m2 : LaserScan) :
  same_where_decisive m1 m2 ->
  Forall (fun i => sector_clearances m1 !!! i = sector_clearances m2 !!! i)
         decisive_sectors.
Proof.
  intros (Hmax & _ & Hread).
  pose proof decisive_indices as Hidx.
  apply Forall_app in Hidx as [Hfront Hidx].
  apply Forall_app in Hidx as [H1 Hidx].
  apply Forall_app in Hidx as [H2 H11].
  assert (Hwin : forall idx, Forall (fun k => decisive_index k = true) idx ->
            closest_in (range_max m1) ((fun k => ranges m1 !!! k) <$> idx)
            = closest_in (range_max m2) ((fun k => ranges m2 !!! k) <$> idx)).
  { intros idx Hdec. rewrite Hmax. f_equal. apply Forall_fmap_ext_1.
    eapply Forall_impl; [exact Hdec|]. intros k Hk. by apply Hread. }
  repeat constructor.
  - exact (Hwin _ Hfront).
  - exact (Hwin _ H1).
  - exact (Hwin _ H2).
  - exact (Hwin _ H11).
Qed.

(** The decision reads four clearances. *)
Lemma DecisionPolicy_decisive (c1 c2 : list float) (pulse : bool) :
  Forall (fun i => c1 !!! i = c2 !!! i) decisive_sectors ->
  DecisionPolicy c1 pulse = DecisionPolicy c2 pulse.
Proof.
  intros Hsame.
  apply Forall_cons in Hsame as [H0 Hsame].
  apply Forall_cons in Hsame as [H1 Hsame].
  apply Forall_cons in Hsame as [H2 Hsame].
  apply Forall_cons in Hsame as [H11 _].
  unfold DecisionPolicy, rule_ladder, first_match.
  by rewrite H0, H1, H2, H11.
Qed.

Section Unread.

Variable pow : float -> Z -> float.
Variable getYaw : Quaternion -> float.

Lemma same_but_unread_fields (s1 s2 : WallFollower) :
  set_scan_data_ [] s1 = set_scan_data_ [] s2 ->
  near_start s1 = near_start s2 /\
  new_scan_data s1 = new_scan_data s2 /\
  initial_scan s1 = initial_scan s2 /\
  since_new_scan s1 = since_new_scan s2.
Proof. destruct s1, s2. cbn. by intros [= -> -> -> -> -> -> -> -> ->]. Qed.

Lemma odom_callback_unread (msg : Odometry) (s1 s2 : WallFollower) :
  same_but_unread s1 s2 ->
  let r1 := odom_callback getYaw msg s1 in
  let r2 := odom_callback getYaw msg s2 in
  ended r1 = ended r2 /\
  commands (sent r1) = commands (sent r2) /\
  same_but_unread (node r1) (node r2).
Proof.
  destruct s1 as [rp1 sx1 sy1 ns1 sd1 nsd1 isc1 sns1 fst1 sm1].
  destruct s2 as [rp2 sx2 sy2 ns2 sd2 nsd2 isc2 sns2 fst2 sm2].
  unfold same_but_unread. cbn.
  intros ([= -> -> -> -> -> -> -> -> ->] & Hl1 & Hl2 & Hsame).
  unfold odom_callback, bind, get, modify, send, ret; cbn.
  repeat match goal with
         | |- context [if ?b then _ else _] => destruct b eqn:?; cbn
         end; repeat split; done.
Qed.

Lemma dispatch_unread (e1 e2 : Event) (s1 s2 : WallFollower) :
  same_decisive_event e1 e2 ->
  same_but_unread s1 s2 ->
  let r1 := dispatch pow getYaw e1 s1 in
  let r2 := dispatch pow getYaw e2 s2 in
  ended r1 = ended r2 /\
  commands (sent r1) = commands (sent r2) /\
  same_but_unread (node r1) (node r2).
Proof.
  destruct e1 as [m1|m1|], e2 as [m2|m2|]; cbn [same_decisive_event dispatch];
    try done.
  - intros Hm (Hrest & Hl1 & Hl2 & Hsame).
    pose proof Hm as (Hmax & Hlen & _).
    assert (Harr : set_scan_data_ [] (arrived s1) = set_scan_data_ [] (arrived s2)).
    { destruct s1 as [? ? ? ? ? ? isc1 ? ? ?], s2 as [? ? ? ? ? ? isc2 ? ? ?].
      unfold arrived in *. cbn in *.
      injection Hrest as -> -> -> -> -> -> -> -> ->. by destruct isc2. }
    destruct (Nat.lt_ge_cases (length (ranges m1)) 360) as [Hshort|Hfull].
    + rewrite !scan_callback_short_run by lia. cbn [ended node sent].
      rewrite Hlen. split; [done|]. split; [done|].
      unfold same_but_unread.
      assert (Hsd : forall s, scan_data_ (arrived s) = scan_data_ s)
        by (intros [? ? ? ? ? ? [] ? ? ?]; reflexivity).
      by rewrite !Hsd.
    + rewrite !scan_callback_full_run by (done || lia). cbn [ended node sent].
      split; [done|]. split; [done|]. unfold same_but_unread. cbn [scan_data_ set_scan_data_].
      split; [|split; [done|split; [done|by apply sector_clearances_decisive]]].
      destruct (arrived s1), (arrived s2). cbn in *.
      by injection Harr as -> -> -> -> -> -> -> -> ->.
  - intros <-. apply odom_callback_unread.
  - intros _ (Hrest & Hl1 & Hl2 & Hsame).
    destruct (same_but_unread_fields s1 s2 Hrest) as (Hns & Hnsd & Hisc & Hsns).
    assert (Htick : set_scan_data_ [] (ticked s1) = set_scan_data_ [] (ticked s2)).
    { destruct s1 as [? ? ? ? ? nsd1 ? ? ? ?], s2 as [? ? ? ? ? nsd2 ? ? ? ?].
      unfold ticked in *. cbn in *.
      injection Hrest as -> -> -> -> -> -> -> -> ->. by destruct nsd2. }
    assert (Hsd : forall s, scan_data_ (ticked s) = scan_data_ s)
      by (intros s; unfold ticked; by destruct (new_scan_data s)).
    destruct (initial_scan s1) eqn:Hscan1; symmetry in Hisc.
    + rewrite !update_callback_runs by done.
      destruct (update_velocity_decides pow (ticked s1)) as (fmt1 & _ & ->).
      destruct (update_velocity_decides pow (ticked s2)) as (fmt2 & _ & ->).
      destruct (same_but_unread_fields _ _ Htick) as (Hns' & _ & _ & Hsns').
      cbn [ended node sent commands omap]. rewrite !Hsd, Hns', Hsns'.
      rewrite (DecisionPolicy_decisive _ _ _ Hsame).
      split; [done|]. split; [done|]. unfold same_but_unread. by rewrite !Hsd.
    + rewrite !update_callback_idle by done. cbn. done.
Qed.

Lemma spin_unread (evs1 evs2 : list Event) (s1 s2 : WallFollower) :
  Forall2 same_decisive_event evs1 evs2 ->
  same_but_unread s1 s2 ->
  let r1 := spin pow getYaw evs1 s1 in
  let r2 := spin pow getYaw evs2 s2 in
  ended r1 = ended r2 /\
  commands (sent r1) = commands (sent r2) /\
  same_but_unread (node r1) (node r2).
Proof.
  intros Hevs. revert s1 s2.
  induction Hevs as [|e1 e2 evs1 evs2 He _ IH]; intros s1 s2 Hsim; cbn zeta.
  - cbn. done.
  - rewrite !spin_cons.
    destruct (dispatch_unread e1 e2 s1 s2 He Hsim) as (Hend & Hcmd & Hsim').
    rewrite <- Hend.
    destruct (ended (dispatch pow getYaw e1 s1)) as [[]|e]; [|done].
    destruct (IH _ _ Hsim') as (IHend & IHcmd & IHsim). cbn [after ended node sent].
    split; [done|]. split; [|done].
    by rewrite !commands_app, Hcmd, IHcmd.
Qed.

(** Ticks with no scan in between publish the same decision, scaled by
    [pow] of the counter as it counts up. *)
Lemma spin_stale_commands (k : nat) (s : WallFollower) :
  initial_scan s = true ->
  new_scan_data s = false ->
  (INT_MIN <= since_new_scan s)%Z ->
  (since_new_scan s + Z.of_nat k <= INT_MAX)%Z ->
  commands (sent (spin pow getYaw (replicate k Timer) s))
  = (fun j => scaled (DecisionPolicy (scan_data_ s) (near_start s))
                     (pow BASE_FACTOR (since_new_scan s + 1 + Z.of_nat j)))
      <$> seq 0 k.
Proof.
  revert s. induction k as [|k IH]; intros s Hscan Hfresh Hlo Hhi; [done|].
  cbn [replicate]. rewrite spin_cons. cbn [dispatch].
  rewrite update_callback_runs by done.
  destruct (update_velocity_decides pow (ticked s)) as (fmt & _ & ->).
  cbn [ended node sent after].
  assert (Hticked : ticked s = set_since_new_scan (since_new_scan s + 1) s).
  { unfold ticked. rewrite Hfresh. f_equal. apply wrap_int_small. lia. }
  rewrite Hticked. rewrite commands_app.
  rewrite IH; [|done|done|cbn; lia|cbn; lia].
  cbn [seq fmap list_fmap]. rewrite <- fmap_S_seq, <- list_fmap_compose.
  cbn [commands omap scan_data_ near_start since_new_scan set_since_new_scan].
  unfold scaled at 2. rewrite Z.add_0_r.
  cbn. f_equal. apply list_fmap_ext. intros _ j _. cbn.
  do 2 f_equal. lia.
Qed.

End Unread.

(** ** The signal and the line on stderr *)

Section Signal.

Variable pow : float -> Z -> float.
Variable getYaw : Quaternion -> float.

(** [near_start] is set by the event that writes the line on stderr, and by
    no other. *)
Lemma dispatch_raised (ev : Event) (s : WallFollower) :
  let r := dispatch pow getYaw ev s in
  near_start (node r) = true <->
  near_start s = true \/ Raised ∈ pulse_log (sent r).
Proof.
  destruct ev as [msg|msg|]; cbn [dispatch].
  - destruct (Nat.lt_ge_cases (length (ranges msg)) 360) as [Hshort|Hfull].
    + rewrite scan_callback_short_run by done. cbn [node sent].
      assert (Hns : near_start (arrived s) = near_start s)
        by (destruct s as [? ? ? ? ? ? [] ? ? ?]; reflexivity).
      rewrite Hns. cbn. split; [by left|]. intros [H|H]; [done|]. by apply elem_of_nil in H.
    + rewrite scan_callback_full by done. cbn [node sent near_start set_scan_data_].
      assert (Hns : near_start (arrived s) = near_start s)
        by (destruct s as [? ? ? ? ? ? [] ? ? ?]; reflexivity).
      rewrite Hns. cbn. split; [by left|]. intros [H|H]; [done|]. by apply elem_of_nil in H.
  - destruct s as [rp sx sy ns sd nsd isc sns fst sm].
    unfold odom_callback, bind, get, modify, send, ret; cbn.
    repeat match goal with
           | |- context [if ?b then _ else _] => destruct b eqn:?; cbn
           end;
      try (split; [by left|]; intros [H|H]; [done|]; by apply elem_of_nil in H).
    split; [intros _; right; by left|done].
  - destruct (initial_scan s) eqn:Hscan.
    + rewrite update_callback_runs by done.
      destruct (update_velocity_decides pow (ticked s)) as (fmt & _ & ->).
      assert (Hns : near_start (ticked s) = near_start s)
        by (unfold ticked; by destruct (new_scan_data s)).
      cbn [node sent]. rewrite Hns. cbn. split; [by left|]. intros [H|H]; [done|].
      destruct (String.eqb fmt _); [|by apply elem_of_nil in H].
      apply elem_of_cons in H as [[=]|H]. by apply elem_of_nil in H.
    + rewrite update_callback_idle by done. cbn.
      split; [by left|]. intros [H|H]; [done|]. by apply elem_of_nil in H.
Qed.

Lemma spin_raised (evs : list Event) (s : WallFollower) :
  let r := spin pow getYaw evs s in
  near_start (node r) = true <->
  near_start s = true \/ Raised ∈ pulse_log (sent r).
Proof.
  revert s. induction evs as [|ev evs IH]; intros s; cbn zeta.
  - cbn. split; [by left|]. intros [H|H]; [done|]. by apply elem_of_nil in H.
  - rewrite spin_cons. pose proof (dispatch_raised ev s) as Hev. cbn zeta in Hev.
    destruct (ended (dispatch pow getYaw ev s)) as [[]|e]; [|done].
    cbn [after node sent]. rewrite IH, Hev, pulse_log_app, elem_of_app. tauto.
Qed.

End Signal.

(** ** What ends the node *)

Section Ending.

Variable pow : float -> Z -> float.
Variable getYaw : Quaternion -> float.

Lemma dispatch_ended (ev : Event) (s : WallFollower) :
  ended (dispatch pow getYaw ev s) =
  if long_enough ev then Normal tt
  else match ev with
       | Scan msg =>
           Thrown (out_of_range (Z.of_nat (Nat.max 350 (length (ranges msg))))
                                (length (ranges msg)))
       | _ => Normal tt
       end.
Proof.
  destruct ev as [msg|msg|]; cbn [dispatch long_enough].
  - destruct (Nat.leb_spec 360 (length (ranges msg))) as [Hfull|Hshort].
    + by rewrite scan_callback_full.
    + by rewrite scan_callback_short_run.
  - by destruct (odom_callback_quiet getYaw msg s) as (-> & _).
  - destruct (initial_scan s) eqn:Hscan.
    + rewrite update_callback_runs by done.
      by destruct (update_velocity_decides pow (ticked s)) as (fmt & _ & ->).
    + by rewrite update_callback_idle.
Qed.

End Ending.

(* ================================================================= *)
(** * Further properties of the callbacks *)

Section Further.

Variable pow : float -> Z -> float.
Variable getYaw : Quaternion -> float.

(** X1: whatever the node has served since its construction, a pose update
    leaves the tracker in its phase or moves it to the next one of the
    cycle Recording, Waiting, Departed, Recording; the line on stderr is
    written on the step from Departed to Recording and on no other. *)
Theorem X1_tracker_cycle (evs : list Event) (x0 y0 : float) (msg : Odometry) :
  let s := node (spin pow getYaw evs (constructed x0 y0)) in
  let r := odom_callback getYaw msg s in
  (first s = true -> start_moving s = true) /\
  (phase (node r) = phase s \/ phase (node r) = next_phase (phase s)) /\
  (pulse_log (sent r) = [Raised] <->
   phase s = Departed /\ phase (node r) = Recording) /\
  (pulse_log (sent r) = [] \/ pulse_log (sent r) = [Raised]).
Proof.
  intros s r. subst s r.
  assert (Hok : tracker_ok (node (spin pow getYaw evs (constructed x0 y0))))
    by (by apply spin_tracker_ok).
  split; [exact Hok|]. by apply odom_callback_phase.
Qed.

(** X2: a lap raises the signal once, at its last pose.  From a tracker
    about to record a start: the first pose, any poses not beyond the range
    of it, one pose beyond that range on some axis, any poses not inside the
    range on both axes, and then a pose inside it.  Nothing is raised before
    the last pose; the last pose raises the signal, sets [near_start] and
    leaves the tracker about to record again. *)
Theorem X2_lap_raises_once (s : WallFollower) (p0 far back : Odometry)
        (stay wander : list Odometry) :
  first s = true ->
  start_moving s = true ->
  Forall (fun p => beyond_range (position_x p0) (position_y p0) p = false) stay ->
  beyond_range (position_x p0) (position_y p0) far = true ->
  Forall (fun p => inside_range (position_x p0) (position_y p0) p = false) wander ->
  inside_range (position_x p0) (position_y p0) back = true ->
  let out := Odom <$> p0 :: stay ++ far :: wander in
  let r := spin pow getYaw (out ++ [Odom back]) s in
  pulse_log (sent (spin pow getYaw out s)) = [] /\
  near_start (node (spin pow getYaw out s)) = near_start s /\
  phase (node (spin pow getYaw out s)) = Departed /\
  ended r = Normal tt /\
  pulse_log (sent r) = [Raised] /\
  near_start (node r) = true /\
  phase (node r) = Recording.
Proof.
  intros Hfirst Hmoving Hstay Hfar Hwander Hback out r.
  (* the first pose *)
  destruct (odom_callback_first getYaw p0 s Hfirst) as (E0 & N0 & L0).
  set (s0 := set_first false _) in N0.
  (* the poses that stay *)
  destruct (spin_waiting_node pow getYaw stay s0) as (E1 & L1 & N1);
    [reflexivity|exact Hmoving|exact Hstay|].
  apply same_pose_tracker in N1 as (X1 & Y1 & NS1 & F1 & M1).
  set (s1 := node (spin pow getYaw (Odom <$> stay) s0)) in *.
  (* the pose that leaves *)
  destruct (odom_callback_departs getYaw far s1) as (E2 & N2 & L2);
    [by rewrite F1|by rewrite M1|by rewrite X1, Y1|].
  set (s2 := set_start_moving false _) in N2.
  (* the poses that wander *)
  destruct (spin_away pow getYaw wander s2) as (E3 & L3 & N3);
    [exact F1|reflexivity|subst s2; cbn; by rewrite X1, Y1|].
  apply same_pose_tracker in N3 as (X3 & Y3 & NS3 & F3 & M3).
  set (s3 := node (spin pow getYaw (Odom <$> wander) s2)) in *.
  (* the pose that returns *)
  destruct (odom_callback_returns getYaw back s3) as (E4 & N4 & L4);
    [by rewrite F3|by rewrite M3|rewrite X3, Y3; subst s2; cbn; by rewrite X1, Y1|].
  assert (Hout : spin pow getYaw out s
                 = mkRun (Normal tt) s3
                     (sent (odom_callback getYaw p0 s)
                      ++ sent (spin pow getYaw (Odom <$> stay) s0)
                      ++ sent (odom_callback getYaw far s1)
                      ++ sent (spin pow getYaw (Odom <$> wander) s2))).
  { subst out. rewrite fmap_cons, spin_cons. cbn [dispatch].
    rewrite E0, N0. rewrite fmap_app, spin_app, E1. fold s1.
    rewrite fmap_cons, spin_cons. cbn [dispatch]. rewrite E2, N2.
    unfold after; cbn [ended node sent]. fold s3. by rewrite E3. }
  subst r. rewrite spin_app, Hout. cbn [ended node sent].
  change (spin pow getYaw [Odom back] s3)
    with (spin pow getYaw (Odom back :: []) s3).
  rewrite spin_cons. cbn [dispatch]. rewrite E4, N4.
  unfold after; cbn [ended node sent spin for_each ret].
  rewrite !pulse_log_app, L0, L1, L2, L3, L4, app_nil_r. cbn [app].
  repeat split; try done.
  - rewrite NS3. subst s2. cbn. rewrite NS1. subst s0. by destruct s.
  - unfold phase. rewrite F3, M3. subst s2. cbn. by rewrite F1.
Qed.

(** X3: the pose at which the signal is raised is not recorded as the new
    start: [start_x] and [start_y] keep the old start through it, and the
    pose that comes next, wherever it is, becomes the start of the next
    lap, with no signal raised. *)
Theorem X3_next_pose_is_new_start (s : WallFollower) (back next : Odometry) :
  first s = false ->
  start_moving s = false ->
  inside_range (start_x s) (start_y s) back = true ->
  let r1 := odom_callback getYaw back s in
  let r2 := odom_callback getYaw next (node r1) in
  start_x (node r1) = start_x s /\
  start_y (node r1) = start_y s /\
  start_x (node r2) = position_x next /\
  start_y (node r2) = position_y next /\
  phase (node r2) = Waiting /\
  pulse_log (sent r2) = [] /\
  near_start (node r2) = true.
Proof.
  intros Hfirst Hmoving Hback r1 r2. subst r1 r2.
  destruct (odom_callback_returns getYaw back s Hfirst Hmoving Hback)
    as (_ & -> & _).
  match goal with |- context [odom_callback getYaw next ?s1] =>
    destruct (odom_callback_first getYaw next s1 eq_refl) as (_ & -> & ->) end.
  by destruct s.
Qed.

End Further.

Section FurtherScan.

Variable pow : float -> Z -> float.
Variable getYaw : Quaternion -> float.

(** X4: after a scan of at least 360 samples, the clearance of each sector
    i = 1..11 is the minimum of [range_max] and the twenty samples at the
    indices 30i-10 .. 30i+9. *)
Theorem X4_sector_clearance (msg : LaserScan) (s : WallFollower) (i : nat) :
  (360 <= length (ranges msg))%nat ->
  length (scan_data_ s) = 12%nat ->
  (1 <= i <= 11)%nat ->
  let r := scan_callback msg s in
  is_minimum_of (scan_data_ (node r) !!! i)
                (range_max msg :: sector_window i (ranges msg)).
Proof.
  intros Hlen Hsd Hi r. subst r.
  rewrite scan_callback_full by done. cbn [node scan_data_ set_scan_data_].
  rewrite store_from_full by (by rewrite Hsd).
  rewrite sector_clearances_sector by done. apply closest_in_minimum.
Qed.

(** X5: the clearances a scan of at least 360 samples leaves depend on its
    [range_max] and on its samples at the indices below 360 that a beam
    covers, and on nothing else: not on the clearances cached before, not on
    the samples between two beams (30i+10 .. 30i+19), not on samples past
    index 359. *)
Theorem X5_clearances_read (m1 m2 : LaserScan) (s1 s2 : WallFollower) :
  (360 <= length (ranges m1))%nat ->
  (360 <= length (ranges m2))%nat ->
  length (scan_data_ s1) = 12%nat ->
  length (scan_data_ s2) = 12%nat ->
  range_max m1 = range_max m2 ->
  (forall k, read_index k = true -> ranges m1 !!! k = ranges m2 !!! k) ->
  scan_data_ (node (scan_callback m1 s1)) = scan_data_ (node (scan_callback m2 s2)) /\
  (s1 = s2 -> scan_callback m1 s1 = scan_callback m2 s2).
Proof.
  intros Hlen1 Hlen2 Hsd1 Hsd2 Hmax Hread.
  rewrite !scan_callback_full by done. cbn [node scan_data_ set_scan_data_].
  rewrite (sector_clearances_read m1 m2 Hmax Hread).
  rewrite !store_from_full by (by rewrite ?Hsd1, ?Hsd2).
  split; [done|]. by intros ->.
Qed.

(** X6: a scan of n < 360 samples makes [scan_callback] throw
    [std::out_of_range] for the first index of the forward beam the scan
    does not have, max(350, n); an empty scan throws for index 350. *)
Theorem X6_first_missing_index (msg : LaserScan) (s : WallFollower) :
  (length (ranges msg) < 360)%nat ->
  ended (scan_callback msg s)
  = Thrown (out_of_range (Z.of_nat (Nat.max 350 (length (ranges msg))))
                         (length (ranges msg))).
Proof.
  intros Hlen. unfold scan_callback. rewrite seqZ_350.
  unfold bind, get, lift; cbn -[closest_over seq Nat.max].
  destruct (initial_scan s); cbn -[closest_over seq Nat.max];
    rewrite closest_over_first_missing by lia; reflexivity.
Qed.

(** X7: when [range_max] is a number, every clearance a scan of at least
    360 samples leaves is a number not above [range_max], whatever the
    samples are: a sample that is NaN, or above [range_max], never becomes a
    clearance. *)
Theorem X7_clearances_capped (msg : LaserScan) (s : WallFollower) :
  (360 <= length (ranges msg))%nat ->
  length (scan_data_ s) = 12%nat ->
  (range_max msg =? range_max msg) = true ->
  Forall (fun c => (c =? c) = true /\ (c <=? range_max msg) = true)
         (scan_data_ (node (scan_callback msg s))).
Proof.
  intros Hlen Hsd Hmax.
  rewrite scan_callback_full by done. cbn [node scan_data_ set_scan_data_].
  rewrite store_from_full by (by rewrite Hsd).
  apply sector_clearances_each; [done|]. intros w _.
  assert (Hle : (closest_in (range_max msg) w <=? range_max msg) = true)
    by (apply closest_in_bounded; by apply double_eqb_leb).
  split; [|done]. by apply double_leb_is_number with (range_max msg).
Qed.

(** X8: when [range_max] is NaN, a scan of at least 360 samples leaves NaN
    in every clearance, whatever its samples; the tick that follows, with
    the near-start signal off, finds no rule that applies and publishes the
    default command, straight ahead, at the full factor. *)
Theorem X8_nan_range_max (msg : LaserScan) (s : WallFollower) :
  (360 <= length (ranges msg))%nat ->
  length (scan_data_ s) = 12%nat ->
  (range_max msg =? range_max msg) = false ->
  let r := scan_callback msg s in
  scan_data_ (node r) = replicate 12 (range_max msg) /\
  (near_start s = false ->
   commands (sent (update_callback pow (node r)))
   = [mkTwist (0.3 * pow BASE_FACTOR 0) (0.0 * pow BASE_FACTOR 0)]).
Proof.
  intros Hlen Hsd Hnan r. subst r.
  rewrite scan_callback_full by done. cbn [node scan_data_ set_scan_data_].
  rewrite store_from_full by (by rewrite Hsd).
  assert (Hall : sector_clearances msg = replicate 12 (range_max msg)).
  { apply list_eq_Forall2. rewrite <- (length_sector_clearances msg).
    apply Forall2_replicate_r; [done|].
    apply sector_clearances_each; [done|]. intros w _. by apply closest_in_nan. }
  split; [done|]. intros Hns.
  rewrite update_callback_runs
    by (unfold arrived; destruct s as [? ? ? ? ? ? [] ? ? ?]; done).
  match goal with |- context [update_velocity pow ?t] =>
    destruct (update_velocity_decides pow t) as (fmt & _ & ->);
    assert (Hsd' : scan_data_ t = replicate 12 (range_max msg))
      by (rewrite <- Hall; unfold arrived, ticked;
          destruct s as [? ? ? ? ? ? [] ? ? ?]; reflexivity);
    assert (Hns' : near_start t = false)
      by (rewrite <- Hns; unfold arrived, ticked;
          destruct s as [? ? ? ? ? ? [] ? ? ?]; reflexivity);
    assert (Hn : since_new_scan t = 0%Z)
      by (unfold arrived, ticked; destruct s as [? ? ? ? ? ? [] ? ? ?]; reflexivity)
  end.
  cbn [sent commands omap]. rewrite Hsd', Hns', Hn.
  unfold DecisionPolicy, rule_ladder, first_match.
  cbn [LEFT_FRONT FRONT FRONT_LEFT FRONT_RIGHT replicate lookup_total
         list_lookup_total fst snd].
  rewrite !(double_ltb_nan _ _ Hnan), !(double_nan_ltb _ _ Hnan). reflexivity.
Qed.

End FurtherScan.

Section FurtherRuns.

Variable pow : float -> Z -> float.
Variable getYaw : Quaternion -> float.

(** X9: the commands depend on four beams only.  Two executions with the
    same ticks and poses, and scans as long, with the same [range_max] and
    the same samples at the indices 350..359, 0..9, 20..39, 50..69 and
    320..339, publish the same commands and end alike, whatever the scans
    hold at the other indices. *)
Theorem X9_unread_beams (evs1 evs2 : list Event) (x0 y0 : float) :
  Forall2 same_decisive_event evs1 evs2 ->
  let r1 := spin pow getYaw evs1 (constructed x0 y0) in
  let r2 := spin pow getYaw evs2 (constructed x0 y0) in
  commands (sent r1) = commands (sent r2) /\ ended r1 = ended r2.
Proof.
  intros Hevs r1 r2. subst r1 r2.
  destruct (spin_unread pow getYaw evs1 evs2 (constructed x0 y0) (constructed x0 y0) Hevs)
    as (Hend & Hcmd & _); [|done].
  unfold same_but_unread. repeat split; try done. repeat constructor.
Qed.

(** X10: the commands that follow a scan decay geometrically.  After a scan
    of at least 360 samples, the ticks served before any other event
    publish one and the same decision, that of the scan's clearances, the
    j-th of them (from 0) scaled by [pow(0.8, j)], for up to 2^31 ticks. *)
Theorem X10_decay_after_scan (msg : LaserScan) (s : WallFollower) (k : nat) :
  (360 <= length (ranges msg))%nat ->
  length (scan_data_ s) = 12%nat ->
  (Z.of_nat k <= 2 ^ 31)%Z ->
  commands (sent (spin pow getYaw (Scan msg :: replicate k Timer) s))
  = (fun j => scaled (DecisionPolicy (sector_clearances msg) (near_start s))
                     (pow BASE_FACTOR (Z.of_nat j)))
      <$> seq 0 k.
Proof.
  intros Hlen Hsd Hk. rewrite spin_cons. cbn [dispatch].
  rewrite scan_callback_full_run by done. cbn [ended node sent after commands omap].
  set (s1 := set_scan_data_ _ _).
  assert (Hscan : initial_scan s1 = true)
    by (subst s1; unfold arrived; destruct s as [? ? ? ? ? ? [] ? ? ?]; reflexivity).
  assert (Hfresh : new_scan_data s1 = true)
    by (subst s1; unfold arrived; destruct s as [? ? ? ? ? ? [] ? ? ?]; reflexivity).
  assert (Hns : near_start s1 = near_start s)
    by (subst s1; unfold arrived; destruct s as [? ? ? ? ? ? [] ? ? ?]; reflexivity).
  destruct k as [|k]; [done|].
  cbn [replicate]. rewrite spin_cons. cbn [dispatch].
  rewrite update_callback_runs by done.
  destruct (update_velocity_decides pow (ticked s1)) as (fmt & _ & ->).
  cbn [ended node sent after]. rewrite commands_app.
  assert (Hticked : ticked s1 = set_since_new_scan 0 (set_new_scan_data false s1))
    by (unfold ticked; by rewrite Hfresh).
  rewrite Hticked, !commands_app.
  rewrite spin_stale_commands;
    [|done|done|cbn; unfold INT_MIN; lia|cbn; unfold INT_MAX; lia].
  change (commands [Info "Closest distance in front: %f"
                      [sector_clearances msg !!! FRONT]]) with (@nil Twist).
  match goal with |- context [commands [Info fmt []; Publish ?t]] =>
    change (commands [Info fmt []; Publish t]) with [t] end.
  cbn [app seq fmap list_fmap]. rewrite <- fmap_S_seq, <- list_fmap_compose.
  cbn [scan_data_ near_start since_new_scan set_since_new_scan set_new_scan_data].
  rewrite Hns. subst s1. cbn [scan_data_ set_scan_data_].
  f_equal. apply list_fmap_ext. intros _ j _. cbn. do 2 f_equal. lia.
Qed.

(** X11: a scan and a pose update delivered one after the other can be
    swapped: the execution publishes the same commands either way, and when
    the scan has at least 360 samples it ends alike and in the same node. *)
Theorem X11_scan_pose_swap (msg : LaserScan) (p : Odometry)
        (rest : list Event) (s : WallFollower) :
  let r1 := spin pow getYaw (Scan msg :: Odom p :: rest) s in
  let r2 := spin pow getYaw (Odom p :: Scan msg :: rest) s in
  commands (sent r1) = commands (sent r2) /\
  ((360 <= length (ranges msg))%nat -> ended r1 = ended r2 /\ node r1 = node r2).
Proof.
  intros r1 r2. subst r1 r2.
  pose proof (odom_callback_quiet getYaw p) as Hodom. cbn zeta in Hodom.
  destruct (Nat.lt_ge_cases (length (ranges msg)) 360) as [Hshort|Hfull].
  - split; [|lia].
    rewrite !spin_cons. cbn [dispatch].
    rewrite scan_callback_short_run by done. cbn [ended node sent].
    destruct (Hodom s) as (Hend & Hcmd & _). rewrite Hend.
    cbn [after ended node sent dispatch].
    rewrite scan_callback_short_run by done. cbn [ended node sent].
    by rewrite commands_app, Hcmd.
  - assert (Hswap :
      forall s, node (odom_callback getYaw p (node (scan_callback msg s)))
                = node (scan_callback msg (node (odom_callback getYaw p s)))).
    { intros s'. rewrite !scan_callback_full by done. cbn [node].
      destruct (Hodom s') as (_ & _ & -> & _).
      destruct s' as [rp sx sy ns sd nsd isc sns fst sm].
      unfold arrived, odom_callback, bind, get, modify, send, ret.
      destruct isc, fst, sm; cbn;
        repeat match goal with
               | |- context [if ?b then _ else _] => destruct b; cbn
               end; reflexivity. }
    rewrite !spin_cons. cbn [dispatch].
    assert (Hfull_end : forall s', ended (scan_callback msg s') = Normal tt)
      by (intros s'; by rewrite scan_callback_full).
    assert (Hfull_cmd : forall s', commands (sent (scan_callback msg s')) = [])
      by (intros s'; by rewrite scan_callback_full).
    rewrite !Hfull_end. destruct (Hodom s) as (Hend & Hcmd & _). rewrite Hend.
    cbn [after ended node sent dispatch].
    rewrite ?Hfull_end.
    destruct (Hodom (node (scan_callback msg s))) as (Hend' & Hcmd' & _).
    rewrite Hend'. cbn [after ended node sent].
    rewrite !commands_app, Hcmd, Hcmd', !Hfull_cmd, Hswap. done.
Qed.

(** X12: each callback writes its own members and no other.  The timer
    callback changes at most [new_scan_data] and [since_new_scan]; the scan
    callback, thrown or not, at most [initial_scan], [new_scan_data] and
    [scan_data_]; the pose callback leaves the clearances, the two scan
    flags and the counter as they are. *)
Theorem X12_callbacks_keep_apart (scan : LaserScan) (p : Odometry) (s : WallFollower) :
  (exists fresh counter,
     node (update_callback pow s)
     = set_since_new_scan counter (set_new_scan_data fresh s)) /\
  (exists clearances,
     node (scan_callback scan s) = set_scan_data_ clearances (arrived s)) /\
  (exists yaw x y signal f m,
     node (odom_callback getYaw p s)
     = set_start_moving m (set_first f (set_near_start signal
         (set_start_y y (set_start_x x (set_robot_pose_ yaw s)))))).
Proof.
  split; [|split].
  - destruct (initial_scan s) eqn:Hscan.
    + rewrite update_callback_runs by done.
      destruct (update_velocity_decides pow (ticked s)) as (fmt & _ & ->).
      cbn [node]. unfold ticked. destruct (new_scan_data s) eqn:Hfresh.
      * by exists false, 0%Z.
      * exists false, (wrap_int (since_new_scan s + 1)).
        destruct s; cbn in *; by subst.
    + rewrite update_callback_idle by done.
      exists (new_scan_data s), (since_new_scan s). by destruct s.
  - destruct (Nat.lt_ge_cases (length (ranges scan)) 360) as [Hshort|Hfull].
    + rewrite scan_callback_short_run by done.
      exists (scan_data_ s). cbn. by destruct s as [? ? ? ? ? ? [] ? ? ?].
    + rewrite scan_callback_full by done. by eexists.
  - destruct (odom_callback_quiet getYaw p s) as (_ & _ & Hsd & Hnsd & Hisc & Hsns & _).
    exists (robot_pose_ (node (odom_callback getYaw p s))),
           (start_x (node (odom_callback getYaw p s))),
           (start_y (node (odom_callback getYaw p s))),
           (near_start (node (odom_callback getYaw p s))),
           (first (node (odom_callback getYaw p s))),
           (start_moving (node (odom_callback getYaw p s))).
    destruct (node (odom_callback getYaw p s)), s. cbn in *. by subst.
Qed.

(** X13: from its construction on, the node has [near_start] set exactly
    when the line "Near start!!" was written to stderr: the flag is set by
    the tracker's return to the start and by nothing else, and it is never
    set without that line. *)
Theorem X13_signal_iff_line (evs : list Event) (x0 y0 : float) :
  let r := spin pow getYaw evs (constructed x0 y0) in
  near_start (node r) = true <-> Raised ∈ pulse_log (sent r).
Proof.
  intros r. subst r. rewrite spin_raised. cbn. split; [|by right].
  by intros [[=]|H].
Qed.

(** X14: of two scans of at least 360 samples delivered one after the
    other, the first leaves no trace but its log line: the execution
    publishes the same commands, ends alike and in the same node as if the
    second had come alone. *)
Theorem X14_last_scan_wins (m1 m2 : LaserScan) (rest : list Event) (s : WallFollower) :
  (360 <= length (ranges m1))%nat ->
  (360 <= length (ranges m2))%nat ->
  length (scan_data_ s) = 12%nat ->
  let r1 := spin pow getYaw (Scan m1 :: Scan m2 :: rest) s in
  let r2 := spin pow getYaw (Scan m2 :: rest) s in
  commands (sent r1) = commands (sent r2) /\
  ended r1 = ended r2 /\
  node r1 = node r2.
Proof.
  intros Hlen1 Hlen2 Hsd r1 r2. subst r1 r2.
  rewrite !spin_cons. cbn [dispatch].
  rewrite (scan_callback_full_run m1) by done. cbn [ended node sent after].
  rewrite !scan_callback_full_run by done. cbn [ended node sent after].
  assert (Hnode : set_scan_data_ (sector_clearances m2)
                    (arrived (set_scan_data_ (sector_clearances m1) (arrived s)))
                  = set_scan_data_ (sector_clearances m2) (arrived s))
    by (destruct s as [? ? ? ? ? ? [] ? ? ?]; reflexivity).
  rewrite Hnode. by rewrite !commands_app.
Qed.

End FurtherRuns.

Section FurtherEnding.

Variable pow : float -> Z -> float.
Variable getYaw : Quaternion -> float.

(** X15: only a scan that is too short ends the node.  An execution is
    served to its end exactly when every scan in it has at least 360
    samples; otherwise it ends with the [std::out_of_range] of its first
    scan of fewer than 360 samples, thrown for the index max(350, n) of
    that scan's n samples, and the events before that scan are all
    served. *)
Theorem X15_only_short_scans_throw (evs : list Event) (s : WallFollower) :
  let r := spin pow getYaw evs s in
  (ended r = Normal tt <-> forallb long_enough evs = true) /\
  (forall e, ended r = Thrown e ->
     exists before msg later,
       evs = before ++ Scan msg :: later /\
       forallb long_enough before = true /\
       (length (ranges msg) < 360)%nat /\
       e = out_of_range (Z.of_nat (Nat.max 350 (length (ranges msg))))
                        (length (ranges msg)) /\
       ended (spin pow getYaw before s) = Normal tt).
Proof.
  revert s. induction evs as [|ev evs IH]; intros s; cbn zeta.
  - cbn. split; [done|]. by intros e [=].
  - rewrite spin_cons. pose proof (dispatch_ended pow getYaw ev s) as Hev.
    cbn [forallb]. destruct (long_enough ev) eqn:Hlong.
    + rewrite Hev. cbn [after ended andb].
      destruct (IH (node (dispatch pow getYaw ev s))) as [IHok IHthrow].
      split; [exact IHok|].
      intros e He. destruct (IHthrow e He) as (before & msg & later & -> & Hb & Hn & -> & Hend).
      exists (ev :: before), msg, later. cbn [forallb]. rewrite Hlong, Hb.
      repeat split; try done.
      rewrite spin_cons, Hev. exact Hend.
    + destruct ev as [msg| |]; try discriminate Hlong.
      rewrite Hev. cbn [ended andb]. split; [done|].
      intros e [= <-]. exists [], msg, evs. repeat split; try done.
      cbn [long_enough] in Hlong. by apply Nat.leb_gt in Hlong.
Qed.

End FurtherEnding.

(* ================================================================= *)
(** * The further properties at concrete inputs *)

(** X2 at a lap around (0, 0). *)
Lemma X2_lap_raises_once_witness :
  let out := Odom <$> pose 0.0 0.0 :: lap_stay ++ pose 1.0 0.0 :: lap_wander in
  let r := spin pow_ref yaw_ref (out ++ [Odom (pose 0.1 (-0.1))]) (constructed 0.0 0.0) in
  pulse_log (sent (spin pow_ref yaw_ref out (constructed 0.0 0.0))) = [] /\
  pulse_log (sent r) = [Raised] /\
  near_start (node r) = true.
Proof.
  pose proof (X2_lap_raises_once pow_ref yaw_ref (constructed 0.0 0.0)
                (pose 0.0 0.0) (pose 1.0 0.0) (pose 0.1 (-0.1))
                lap_stay lap_wander eq_refl eq_refl) as H.
  destruct H as (H1 & _ & _ & _ & H2 & H3 & _);
    [repeat constructor|reflexivity|repeat constructor|reflexivity|].
  cbn zeta. auto.
Defined.

(** X3 at a tracker that took the robot for gone from (0, 0). *)
Lemma X3_next_pose_is_new_start_witness :
  let s := set_start_moving false (running (replicate 12 1.0) false false 0) in
  let r1 := odom_callback yaw_ref (pose 0.1 0.1) s in
  let r2 := odom_callback yaw_ref (pose 5.0 7.0) (node r1) in
  start_x (node r1) = 0.0 /\ start_x (node r2) = 5.0 /\ start_y (node r2) = 7.0.
Proof.
  pose proof (X3_next_pose_is_new_start yaw_ref
                (set_start_moving false (running (replicate 12 1.0) false false 0))
                (pose 0.1 0.1) (pose 5.0 7.0) eq_refl eq_refl eq_refl)
    as (H1 & _ & H2 & H3 & _).
  cbn zeta. auto.
Defined.

(** X4 at the left sector of a sweep with a near sample at index 95. *)
Lemma X4_sector_clearance_witness :
  let msg := sweep_with 3.5 [(95%nat, 0.4)] in
  is_minimum_of (scan_data_ (node (scan_callback msg (constructed 0.0 0.0))) !!! LEFT)
                (range_max msg :: sector_window LEFT (ranges msg)).
Proof.
  apply (X4_sector_clearance (sweep_with 3.5 [(95%nat, 0.4)]) (constructed 0.0 0.0) LEFT).
  - cbn [sweep_with ranges foldr fst snd]. rewrite length_insert, length_replicate. lia.
  - reflexivity.
  - unfold LEFT. lia.
Defined.

(** X5 at two sweeps that differ between two beams and past index 359, on
    nodes with different clearances. *)
Lemma X5_clearances_read_witness :
  let m1 := sweep_with 3.5 [(100%nat, 0.4)] in
  let m2 := mkLaserScan 3.5 (ranges (sweep_with 3.5 [(100%nat, 0.4); (15%nat, 0.1)])
                             ++ [0.0; 0.0]) in
  scan_data_ (node (scan_callback m1 (constructed 0.0 0.0)))
  = scan_data_ (node (scan_callback m2 (running (replicate 12 2.0) false false 0))).
Proof.
  refine (proj1 (X5_clearances_read
                   (sweep_with 3.5 [(100%nat, 0.4)])
                   (mkLaserScan 3.5
                      (ranges (sweep_with 3.5 [(100%nat, 0.4); (15%nat, 0.1)])
                       ++ [0.0; 0.0]))
                   (constructed 0.0 0.0) (running (replicate 12 2.0) false false 0)
                   _ _ eq_refl eq_refl eq_refl _)).
  - vm_compute. lia.
  - vm_compute. lia.
  - intros k Hk.
    assert (Hlt : (k < 360)%nat).
    { unfold read_index in Hk. apply andb_true_iff in Hk as [Hk _].
      by apply Nat.ltb_lt in Hk. }
    destruct (decide (k = 15%nat)) as [->|Hne]; [discriminate Hk|].
    cbn [sweep_with ranges foldr fst snd].
    rewrite lookup_total_app_l
      by (rewrite !length_insert, length_replicate; exact Hlt).
    destruct (decide (k = 100%nat)) as [->|Hne'].
    + rewrite !list_lookup_total_insert_eq
        by (rewrite ?length_insert, length_replicate; lia). reflexivity.
    + rewrite !list_lookup_total_insert_ne by done. reflexivity.
Defined.

(** X6 at an empty sweep. *)
Lemma X6_first_missing_index_witness :
  ended (scan_callback (mkLaserScan 3.5 []) (constructed 0.0 0.0))
  = Thrown (out_of_range 350 0).
Proof.
  apply (X6_first_missing_index (mkLaserScan 3.5 []) (constructed 0.0 0.0)).
  cbn. lia.
Defined.

(** X7 at a sweep with a NaN, an infinite and a negative sample. *)
Lemma X7_clearances_capped_witness :
  let msg := sweep_with 3.5 [(0%nat, nan); (5%nat, infinity); (30%nat, -2.0)] in
  Forall (fun c => (c =? c) = true /\ (c <=? range_max msg) = true)
         (scan_data_ (node (scan_callback msg (constructed 0.0 0.0)))).
Proof.
  apply (X7_clearances_capped
           (sweep_with 3.5 [(0%nat, nan); (5%nat, infinity); (30%nat, -2.0)])
           (constructed 0.0 0.0)).
  - cbn [sweep_with ranges foldr fst snd].
    rewrite !length_insert, length_replicate. lia.
  - reflexivity.
  - reflexivity.
Defined.

(** X8 at a sweep with a NaN [range_max] and a sample 0.1 straight ahead. *)
Lemma X8_nan_range_max_witness :
  let msg := sweep_with nan [(0%nat, 0.1)] in
  let r := scan_callback msg (constructed 0.0 0.0) in
  commands (sent (update_callback pow_ref (node r))) = [mkTwist 0.3 0.0].
Proof.
  refine (proj2 (X8_nan_range_max pow_ref
                   (sweep_with nan [(0%nat, 0.1)]) (constructed 0.0 0.0)
                   _ eq_refl eq_refl) eq_refl).
  cbn [sweep_with ranges foldr fst snd].
  rewrite !length_insert, length_replicate. lia.
Defined.

(** X9 at two sweeps that differ straight behind the robot. *)
Lemma X9_unread_beams_witness :
  let evs1 := [Scan (sweep_with 3.5 [(0%nat, 0.5)]); Timer] in
  let evs2 := [Scan (sweep_with 3.5 [(0%nat, 0.5); (180%nat, 0.05)]); Timer] in
  let r1 := spin pow_ref yaw_ref evs1 (constructed 0.0 0.0) in
  let r2 := spin pow_ref yaw_ref evs2 (constructed 0.0 0.0) in
  commands (sent r1) = commands (sent r2) /\ ended r1 = ended r2.
Proof.
  apply (X9_unread_beams pow_ref yaw_ref
           [Scan (sweep_with 3.5 [(0%nat, 0.5)]); Timer]
           [Scan (sweep_with 3.5 [(0%nat, 0.5); (180%nat, 0.05)]); Timer] 0.0 0.0).
  constructor; [|repeat constructor].
  split; [reflexivity|]. split; [reflexivity|].
  intros k Hk.
  destruct (decide (k = 180%nat)) as [->|Hne]; [discriminate Hk|].
  cbn [sweep_with ranges foldr fst snd].
  destruct (decide (k = 0%nat)) as [->|Hne']; [reflexivity|].
  by rewrite !list_lookup_total_insert_ne.
Defined.

(** X10 at three ticks after a sweep with a near sample straight ahead. *)
Lemma X10_decay_after_scan_witness :
  let msg := sweep_with 3.5 [(0%nat, 0.5)] in
  commands (sent (spin pow_ref yaw_ref (Scan msg :: replicate 3 Timer)
                    (constructed 0.0 0.0)))
  = (fun j => scaled (DecisionPolicy (sector_clearances msg) false)
                     (pow_ref BASE_FACTOR (Z.of_nat j)))
      <$> seq 0 3.
Proof.
  apply (X10_decay_after_scan pow_ref yaw_ref
           (sweep_with 3.5 [(0%nat, 0.5)]) (constructed 0.0 0.0) 3).
  - cbn [sweep_with ranges foldr fst snd].
    rewrite !length_insert, length_replicate. lia.
  - reflexivity.
  - cbn. lia.
Defined.

(** X11 at a sweep and a pose before two ticks. *)
Lemma X11_scan_pose_swap_witness :
  let msg := sweep_with 3.5 [(0%nat, 0.5)] in
  let r1 := spin pow_ref yaw_ref
              [Scan msg; Odom (pose 1.0 1.0); Timer; Timer] (constructed 0.0 0.0) in
  let r2 := spin pow_ref yaw_ref
              [Odom (pose 1.0 1.0); Scan msg; Timer; Timer] (constructed 0.0 0.0) in
  commands (sent r1) = commands (sent r2) /\ node r1 = node r2.
Proof.
  pose proof (X11_scan_pose_swap pow_ref yaw_ref
                (sweep_with 3.5 [(0%nat, 0.5)]) (pose 1.0 1.0)
                [Timer; Timer] (constructed 0.0 0.0)) as [Hcmd Hnode].
  split; [exact Hcmd|]. apply Hnode.
  cbn [sweep_with ranges foldr fst snd].
  rewrite !length_insert, length_replicate. lia.
Defined.

(** X14 at two sweeps before a tick. *)
Lemma X14_last_scan_wins_witness :
  let m1 := sweep_with 3.5 [(0%nat, 0.5)] in
  let m2 := flat_scan 3.5 0.8 in
  let r1 := spin pow_ref yaw_ref [Scan m1; Scan m2; Timer] (constructed 0.0 0.0) in
  let r2 := spin pow_ref yaw_ref [Scan m2; Timer] (constructed 0.0 0.0) in
  commands (sent r1) = commands (sent r2) /\
  ended r1 = ended r2 /\
  node r1 = node r2.
Proof.
  apply (X14_last_scan_wins pow_ref yaw_ref
           (sweep_with 3.5 [(0%nat, 0.5)]) (flat_scan 3.5 0.8) [Timer]
           (constructed 0.0 0.0)).
  - cbn [sweep_with ranges foldr fst snd].
    rewrite !length_insert, length_replicate. lia.
  - cbn [flat_scan ranges]. rewrite length_replicate. lia.
  - reflexivity.
Defined.

(** X15 at a pose, a sweep of 355 samples and a tick. *)
Lemma X15_only_short_scans_throw_witness :
  let evs := [Odom (pose 0.0 0.0); Scan (mkLaserScan 3.5 (replicate 355 1.0)); Timer] in
  exists before msg later,
    evs = before ++ Scan msg :: later /\
    forallb long_enough before = true /\
    (length (ranges msg) < 360)%nat /\
    out_of_range 355 355
    = out_of_range (Z.of_nat (Nat.max 350 (length (ranges msg))))
                   (length (ranges msg)) /\
    ended (spin pow_ref yaw_ref before (constructed 0.0 0.0)) = Normal tt.
Proof.
  exact (proj2 (X15_only_short_scans_throw pow_ref yaw_ref
                  [Odom (pose 0.0 0.0);
                   Scan (mkLaserScan 3.5 (replicate 355 1.0)); Timer]
                  (constructed 0.0 0.0))
               (out_of_range 355 355) eq_refl).
Defined.
